(** * Architex document workbench: a shallow embedding of [Workbench]

    The [Workbench] React component of the frontend keeps three pieces of
    state ([content], [activeTab], [diagramHtml]), extracts Mermaid fences
    from [content] with a regular expression, hands the first one to
    [mermaid.render], and shows a preview computed by [renderMarkdown], a
    chain of regular-expression substitutions.

    JavaScript strings are modelled as [string] (sequences of 8-bit code
    units; among those the line terminators of ECMAScript are LF and CR).
    Regular expressions are written with a few backtracking combinators, so
    that each pattern of the source reads off its Rocq counterpart.

    Two more parts of the repository follow the workbench: the query form of
    the [AIOracle] panel, and the control flow of the build-and-push
    script. *)

From Stdlib Require Import Strings.String Strings.Ascii Lists.List Arith.Arith Bool.Bool Lia.
Import ListNotations.

Open Scope string_scope.

(** ** Strings *)

Module JsString.

(** The line feed and the double quote, which string literals of this file
    do not spell out. *)
Definition LF : ascii := "010"%char.
Definition CR : ascii := "013"%char.
Definition nl : string := String LF EmptyString.
Definition dq : string := String "034"%char EmptyString.

(** ECMAScript LineTerminator, restricted to 8-bit code units. *)
Definition is_line_terminator (c : ascii) : bool :=
  Ascii.eqb c LF || Ascii.eqb c CR.

(** [strip_prefix p s] is the rest of [s] after its prefix [p]. *)
Fixpoint strip_prefix (p s : string) : option string :=
  match p with
  | EmptyString => Some s
  | String a p' =>
      match s with
      | EmptyString => None
      | String b s' => if Ascii.eqb a b then strip_prefix p' s' else None
      end
  end.

(** Every character of [s] satisfies [p]. *)
Fixpoint all_chars (p : ascii -> bool) (s : string) : bool :=
  match s with
  | EmptyString => true
  | String c s' => p c && all_chars p s'
  end.

Definition is_not (c : ascii) : ascii -> bool := fun d => negb (Ascii.eqb d c).

Fixpoint repeat_char (c : ascii) (n : nat) : string :=
  match n with
  | O => EmptyString
  | S k => String c (repeat_char c k)
  end.

End JsString.
Import JsString.

(** ** Regular expressions

    A pattern is a matcher in continuation-passing style: it consumes a
    prefix of the input and hands the rest to its continuation; when the
    continuation fails, it backtracks, in the order ECMAScript prescribes. *)

Module RegExp.

Definition cont (A : Type) : Type := string -> option A.

(** End of the pattern: the match succeeds, the rest of the input is
    returned. *)
Definition accept : cont string := fun s => Some s.

(** A literal. *)
Definition lit {A} (p : string) (k : cont A) : cont A :=
  fun s => match strip_prefix p s with
           | Some r => k r
           | None => None
           end.

(** The character classes of the source: [.] (no [s] flag) and [[\s\S]]. *)
Definition dot : ascii -> bool := fun c => negb (is_line_terminator c).
Definition any : ascii -> bool := fun _ => true.

Definition capture {A} (c : ascii) (r : option (string * A)) : option (string * A) :=
  match r with
  | Some (cap, a) => Some (String c cap, a)
  | None => None
  end.

(** [(cls*?)]: a captured lazy star; the shortest run is tried first. *)
Fixpoint star_lazy {A} (cls : ascii -> bool) (k : cont A) (s : string)
  : option (string * A) :=
  match k s with
  | Some a => Some (EmptyString, a)
  | None =>
      match s with
      | EmptyString => None
      | String c s' => if cls c then capture c (star_lazy cls k s') else None
      end
  end.

(** The same with a greedy star; the longest run is tried first. *)
Fixpoint star_greedy {A} (cls : ascii -> bool) (k : cont A) (s : string)
  : option (string * A) :=
  let stop := match k s with
              | Some a => Some (EmptyString, a)
              | None => None
              end in
  match s with
  | EmptyString => stop
  | String c s' =>
      if cls c
      then match capture c (star_greedy cls k s') with
           | Some r => Some r
           | None => stop
           end
      else stop
  end.

(** [$] with the [m] flag: the end of the input or of a line. *)
Definition eol {A} (k : cont A) : cont A :=
  fun s => match s with
           | EmptyString => k s
           | String c _ => if is_line_terminator c then k s else None
           end.

(** A substitution rule: a pattern together with its replacement template.
    Applied at a position of the input, told whether that position starts
    a line (for [^] with the [m] flag), it returns the replacement text and
    the input after the match. *)
Definition rule : Type := bool -> string -> option (string * string).

(** [String.prototype.replace] with a [g] pattern: scan left to right; at
    a match, emit the replacement and resume after the match (the [skip]
    characters still to be passed over); otherwise copy one character.
    An empty match emits the replacement and copies the character. *)
Fixpoint replace_from (r : rule) (skip : nat) (bol : bool) (s : string) : string :=
  match s with
  | EmptyString =>
      match skip, r bol EmptyString with
      | O, Some (repl, _) => repl
      | _, _ => EmptyString
      end
  | String c s' =>
      let bol' := is_line_terminator c in
      match skip with
      | S k => replace_from r k bol' s'
      | O =>
          match r bol s with
          | Some (repl, rest) =>
              if Nat.leb (String.length rest) (String.length s')
              then repl ++ replace_from r (String.length s' - String.length rest) bol' s'
              else repl ++ String c (replace_from r 0 bol' s')
          | None => String c (replace_from r 0 bol' s')
          end
      end
  end.

Definition replace (r : rule) (s : string) : string := replace_from r 0 true s.

(** A match object: [m.index], [m[0]] and [m[1]]. *)
Record RegExpMatch : Type := mkMatch {
  index : nat;
  full : string;
  group1 : string
}.

End RegExp.
Import RegExp.

(** [String.prototype.matchAll]: the match objects of a [g] pattern with one
    capture group, left to right, each search resuming where the previous
    match ended. *)

Module MatchAll.

Fixpoint matchAll_from (p : cont (string * string)) (skip idx : nat) (s : string)
  : list RegExpMatch :=
  match s with
  | EmptyString =>
      match skip, p EmptyString with
      | O, Some (g, _) => [mkMatch idx EmptyString g]
      | _, _ => []
      end
  | String c s' =>
      match skip with
      | S k => matchAll_from p k (S idx) s'
      | O =>
          match p s with
          | Some (g, rest) =>
              let n := String.length s - String.length rest in
              mkMatch idx (substring 0 n s) g :: matchAll_from p (n - 1) (S idx) s'
          | None => matchAll_from p 0 (S idx) s'
          end
      end
  end.

Definition matchAll (p : cont (string * string)) (s : string) : list RegExpMatch :=
  matchAll_from p 0 0 s.

End MatchAll.
Import MatchAll.

(** ** The Workbench component *)

(** The fence markers of the Mermaid pattern. *)
Definition fence_open : string := "```mermaid" ++ nl.
Definition fence_close : string := nl ++ "```".

(** [mermaidRegex], "/```mermaid\n([\s\S]*?)\n```/g": the result is the capture
    group and the input after the match. *)
Definition mermaidRegex : cont (string * string) :=
  lit fence_open (star_lazy any (lit fence_close accept)).

(** *** renderMarkdown *)

Definition h1_open : string := "<h1 class=" ++ dq ++ "text-3xl font-bold mb-4" ++ dq ++ ">".
Definition h2_open : string := "<h2 class=" ++ dq ++ "text-2xl font-semibold mb-3" ++ dq ++ ">".
Definition h3_open : string := "<h3 class=" ++ dq ++ "text-xl font-medium mb-2" ++ dq ++ ">".
Definition h1_close : string := "</h1>".
Definition h2_close : string := "</h2>".
Definition h3_close : string := "</h3>".
Definition diagram_placeholder : string :=
  "<div class=" ++ dq ++ "diagram-placeholder" ++ dq ++ ">Diagram rendered above</div>".
Definition pre_open : string :=
  "<pre class=" ++ dq ++ "bg-muted p-4 rounded-lg overflow-x-auto" ++ dq ++ "><code>".
Definition pre_close : string := "</code></pre>".

(** "/^# (.*$)/gim" and its two siblings, replaced by the heading tag around
    $1. The [i] flag has no letter to act on. *)
Definition heading_rule (marker opening closing : string) : rule :=
  fun bol s =>
    if bol
    then match lit marker (star_greedy dot (eol accept)) s with
         | Some (t, rest) => Some (opening ++ t ++ closing, rest)
         | None => None
         end
    else None.

Definition h1_rule : rule := heading_rule "# " h1_open h1_close.
Definition h2_rule : rule := heading_rule "## " h2_open h2_close.
Definition h3_rule : rule := heading_rule "### " h3_open h3_close.

(** The bold and italic patterns (flags gim): a marker, a captured greedy
    run of [.], the marker again; replaced by the tag around $1. *)
Definition emphasis_rule (marker opening closing : string) : rule :=
  fun _ s =>
    match lit marker (star_greedy dot (lit marker accept)) s with
    | Some (t, rest) => Some (opening ++ t ++ closing, rest)
    | None => None
    end.

Definition strong_rule : rule := emphasis_rule "**" "<strong>" "</strong>".
Definition em_rule : rule := emphasis_rule "*" "<em>" "</em>".

(** "/```mermaid\n([\s\S]*?)\n```/g", replaced by the placeholder. *)
Definition mermaid_rule : rule :=
  fun _ s =>
    match mermaidRegex s with
    | Some (_, rest) => Some (diagram_placeholder, rest)
    | None => None
    end.

(** "/```(.*?)\n([\s\S]*?)\n```/g", replaced by the pre/code tags around $2. *)
Definition code_rule : rule :=
  fun _ s =>
    match lit "```" (star_lazy dot (lit nl (star_lazy any (lit fence_close accept)))) s with
    | Some (_, (body, rest)) => Some (pre_open ++ body ++ pre_close, rest)
    | None => None
    end.

(** "/\n/g", replaced by a break. *)
Definition br_rule : rule :=
  fun _ s =>
    match lit nl accept s with
    | Some rest => Some ("<br>", rest)
    | None => None
    end.

Definition renderMarkdown (text : string) : string :=
  replace br_rule
    (replace code_rule
      (replace mermaid_rule
        (replace em_rule
          (replace strong_rule
            (replace h3_rule
              (replace h2_rule
                (replace h1_rule text))))))).

(** *** State *)

(** The argument of the editor's [onChange]: a string, or no value. *)
Inductive JsValue : Type :=
| JsUndefined
| JsNull
| JsString (s : string).

Definition ToBoolean (v : JsValue) : bool :=
  match v with
  | JsString s => negb (String.eqb s EmptyString)
  | _ => false
  end.

(** [value || ''], which [setContent] then stores. *)
Definition or_empty (value : JsValue) : string :=
  match value with
  | JsString s => if ToBoolean value then s else EmptyString
  | _ => EmptyString
  end.

(** The values [activeTab] takes: its initial value and the three triggers. *)
Inductive Tab : Type := editor | preview | diagram | outline.

(** A call [mermaid.render('diagram', source)] whose promise is not settled
    yet. [issued_at] is a ghost field: the revision of [content] whose
    effect run made the call. *)
Record Task : Type := mkTask {
  issued_at : nat;
  source : string
}.

(** How a render promise settles: [{ svg }], or a rejection. *)
Inductive Outcome : Type :=
| Resolved (svg : string)
| Rejected (error : string).

(** The three [useState] cells, the renders in flight, and two ghost fields
    that no transition reads: [revision] counts the changes of [content],
    [calls] logs the sources handed to [mermaid.render], latest first. *)
Record Workbench : Type := mkWorkbench {
  content : string;
  activeTab : Tab;
  diagramHtml : string;
  pending : list Task;
  revision : nat;
  calls : list string
}.

Definition initial_content : string :=
  String.concat nl [
      "# Solution Architecture Document";
      "";
      "## Context";
      "We need to design a scalable e-commerce platform that can handle high traffic during peak shopping seasons.";
      "";
      "## Requirements";
      "- Handle 10,000+ concurrent users";
      "- 99.9% uptime";
      "- Sub-second response times";
      "- PCI DSS compliance";
      "";
      "## Architecture Decision Record";
      "";
      "### Status";
      "Proposed";
      "";
      "### Context";
      "The current monolithic architecture cannot scale to meet our growing user base and performance requirements.";
      "";
      "### Decision";
      "We will adopt a microservices architecture using containerized services on Kubernetes.";
      "";
      "### Consequences";
      "**Positive:**";
      "- Better scalability and fault isolation";
      "- Independent deployment of services";
      "- Technology diversity for different services";
      "";
      "**Negative:**";
      "- Increased operational complexity";
      "- Network latency between services";
      "- Distributed system challenges";
      "";
      "## System Architecture";
      "";
      "```mermaid";
      "graph TB";
      "    A[Load Balancer] --> B[API Gateway]";
      "    B --> C[User Service]";
      "    B --> D[Product Service]";
      "    B --> E[Order Service]";
      "    B --> F[Payment Service]";
      "    ";
      "    C --> G[(User DB)]";
      "    D --> H[(Product DB)]";
      "    E --> I[(Order DB)]";
      "    F --> J[(Payment DB)]";
      "    ";
      "    K[Redis Cache] --> B";
      "    L[Message Queue] --> E";
      "    L --> F";
      "```";
      "";
      "## Implementation Plan";
      "1. Set up Kubernetes cluster";
      "2. Containerize existing services";
      "3. Implement API Gateway";
      "4. Migrate data to microservices";
      "5. Set up monitoring and logging"
  ].

Definition render_error : string :=
  "<p class=" ++ dq ++ "text-red-500" ++ dq ++ ">Error rendering diagram</p>".

Definition setContent (c : string) (st : Workbench) : Workbench :=
  mkWorkbench c (activeTab st) (diagramHtml st) (pending st) (revision st) (calls st).

Definition setActiveTab (t : Tab) (st : Workbench) : Workbench :=
  mkWorkbench (content st) t (diagramHtml st) (pending st) (revision st) (calls st).

Definition setDiagramHtml (html : string) (st : Workbench) : Workbench :=
  mkWorkbench (content st) (activeTab st) html (pending st) (revision st) (calls st).

(** [mermaid.render('diagram', diagramCode)] is called and awaited. *)
Definition call_render (diagramCode : string) (st : Workbench) : Workbench :=
  mkWorkbench (content st) (activeTab st) (diagramHtml st)
    (pending st ++ [mkTask (revision st) diagramCode])
    (revision st) (diagramCode :: calls st).

(** The effect on [content], up to its [await]. *)
Definition extractMermaidDiagrams (st : Workbench) : Workbench :=
  let matches := matchAll mermaidRegex (content st) in
  match matches with
  | m :: _ => call_render (group1 m) st
  | [] => setDiagramHtml EmptyString st
  end.

(** The rest of the effect, once the awaited promise has settled: the [try]
    block goes on, or the [catch] block runs. *)
Definition resume (o : Outcome) (st : Workbench) : Workbench :=
  match o with
  | Resolved svg => setDiagramHtml svg st
  | Rejected _ => setDiagramHtml render_error st
  end.

Fixpoint remove_nth {A} (k : nat) (l : list A) : list A :=
  match l with
  | [] => []
  | x :: l' => match k with O => l' | S k' => x :: remove_nth k' l' end
  end.

Definition drop_task (k : nat) (st : Workbench) : Workbench :=
  mkWorkbench (content st) (activeTab st) (diagramHtml st)
    (remove_nth k (pending st)) (revision st) (calls st).

(** [handleEditorChange]: [setContent(value || '')]. *)
Definition handleEditorChange (value : JsValue) (st : Workbench) : Workbench :=
  setContent (or_empty value) st.

Definition next_revision (st : Workbench) : Workbench :=
  mkWorkbench (content st) (activeTab st) (diagramHtml st) (pending st)
    (S (revision st)) (calls st).

(** After a state update React renders the component again and runs the
    effect when its dependency, [content], is not the string it was. *)
Definition commit (before after : Workbench) : Workbench :=
  if String.eqb (content after) (content before)
  then after
  else extractMermaidDiagrams (next_revision after).

(** The component after mounting: the initial state cells, and the first
    run of the effect. *)
Definition mount : Workbench :=
  extractMermaidDiagrams
    (mkWorkbench initial_content editor EmptyString [] 0 []).

(** What can happen to a mounted component: the editor reports a change, a
    tab trigger is chosen, or the render in flight at position [k] settles. *)
Inductive Event : Type :=
| EditorChange (value : JsValue)
| TabChange (t : Tab)
| RenderSettled (k : nat) (o : Outcome).

Definition step (st : Workbench) (ev : Event) : Workbench :=
  match ev with
  | EditorChange value => commit st (handleEditorChange value st)
  | TabChange t => commit st (setActiveTab t st)
  | RenderSettled k o =>
      match nth_error (pending st) k with
      | Some _ => commit st (resume o (drop_task k st))
      | None => st
      end
  end.

Definition run (st : Workbench) (evs : list Event) : Workbench :=
  fold_left step evs st.

(** *** Panes *)

(** The preview pane: [renderMarkdown(content)]. *)
Definition previewPane (st : Workbench) : string := renderMarkdown (content st).

(** The diagram pane: the markup, or the notice that no diagram was found. *)
Definition diagramPane (st : Workbench) : option string :=
  if String.eqb (diagramHtml st) EmptyString then None else Some (diagramHtml st).

(** The outline pane: ten links, each with its left padding (the number in
    its [pl-] class). *)
Definition outlinePane (st : Workbench) : list (nat * string) :=
  [ (0, "Solution Architecture Document");
    (4, "Context");
    (4, "Requirements");
    (4, "Architecture Decision Record");
    (8, "Status");
    (8, "Context");
    (8, "Decision");
    (8, "Consequences");
    (4, "System Architecture");
    (4, "Implementation Plan") ].

(** What the right half of the screen shows: the pane of the active tab,
    none for the initial value of [activeTab]. *)
Inductive Pane : Type :=
| NoPane
| PreviewPane (html : string)
| DiagramPane (html : option string)
| OutlinePane (links : list (nat * string)).

Definition pane_of (t : Tab) (st : Workbench) : Pane :=
  match t with
  | editor => NoPane
  | preview => PreviewPane (previewPane st)
  | diagram => DiagramPane (diagramPane st)
  | outline => OutlinePane (outlinePane st)
  end.

Definition shownPane (st : Workbench) : Pane := pane_of (activeTab st) st.

(** ** Vocabulary of the specification *)

(** The Diagram Extractor and the attributes of a DiagramBlock, read off the
    match objects: the ordinal index of a block is its position in the
    array. *)
Definition extract (text : string) : list RegExpMatch := matchAll mermaidRegex text.
Definition sourceText (m : RegExpMatch) : string := group1 m.
Definition spanStart (m : RegExpMatch) : nat := index m.
Definition spanEnd (m : RegExpMatch) : nat := index m + String.length (full m).

(** A diagram-tagged fence with inner content [body] starts at offset [i]
    of [text]: the opening marker stands there, and the closing marker that
    ends [body] is the first one after it. *)
Definition fence_at (text : string) (i : nat) (body : string) : Prop :=
  exists pre post,
    text = pre ++ fence_open ++ body ++ fence_close ++ post /\
    String.length pre = i /\
    forall body' post',
      body ++ fence_close ++ post = body' ++ fence_close ++ post' ->
      String.length body <= String.length body'.

(** Matches that follow one another from offset [lo] on without overlap. *)
Fixpoint chained (lo : nat) (ms : list RegExpMatch) : Prop :=
  match ms with
  | [] => True
  | m :: ms' => lo <= spanStart m /\ chained (spanEnd m) ms'
  end.

(** Line feeds turned into breaks. *)
Fixpoint nl2br (s : string) : string :=
  match s with
  | EmptyString => EmptyString
  | String c s' => if Ascii.eqb c LF then "<br>" ++ nl2br s' else String c (nl2br s')
  end.

(** The heading elements the projector knows, by level. *)
Definition heading_open (level : nat) : string :=
  match level with
  | 1 => h1_open
  | 2 => h2_open
  | _ => h3_open
  end.

Definition heading_close (level : nat) : string :=
  match level with
  | 1 => h1_close
  | 2 => h2_close
  | _ => h3_close
  end.

(** The first three passes of [renderMarkdown]. *)
Definition headings (text : string) : string :=
  replace h3_rule (replace h2_rule (replace h1_rule text)).

(** Text that no heading, emphasis or fence rule can touch; such text on
    one line. *)
Definition inert (c : ascii) : bool :=
  is_not "#"%char c && is_not "*"%char c && is_not "`"%char c.
Definition inert_line (c : ascii) : bool := inert c && dot c.

(** Text without emphasis or fence markers, and the text of a heading:
    such text on one line. *)
Definition plain (c : ascii) : bool := is_not "*"%char c && is_not "`"%char c.
Definition heading_text (c : ascii) : bool := dot c && plain c.

(** Whether the position after [a] starts a line, given whether the
    position before it does. *)
Fixpoint bol_after (bol : bool) (a : string) : bool :=
  match a with
  | EmptyString => bol
  | String c a' => bol_after (is_line_terminator c) a'
  end.

(** A text that is empty or ends with a line terminator; a text that is
    empty or starts with one. *)
Fixpoint ends_with_break (s : string) : bool :=
  match s with
  | EmptyString => true
  | String c s' =>
      match s' with
      | EmptyString => is_line_terminator c
      | String _ _ => ends_with_break s'
      end
  end.

Definition starts_with_break (s : string) : bool :=
  match s with
  | EmptyString => true
  | String c _ => is_line_terminator c
  end.

(** A text made of whole lines, each with its terminator. *)
Inductive lines_ended : string -> Prop :=
| lines_none : lines_ended EmptyString
| lines_more (l : string) (c : ascii) (s : string) :
    all_chars dot l = true -> is_line_terminator c = true -> lines_ended s ->
    lines_ended (l ++ String c s).

(** A rule that matches at no position of an input. *)
Fixpoint never (r : rule) (bol : bool) (s : string) : Prop :=
  r bol s = None /\
  match s with
  | EmptyString => True
  | String c s' => never r (is_line_terminator c) s'
  end.

(** A rule whose pattern starts with the literal character [c0]. *)
Definition starts_with (c0 : ascii) (r : rule) : Prop :=
  (forall bol, r bol EmptyString = None) /\
  (forall bol c s, Ascii.eqb c0 c = false -> r bol (String c s) = None).

(** The outline tree of the specification, and the levels of its nodes in
    document order. *)
Local Unset Elimination Schemes.
Inductive OutlineNode : Type :=
| Node (level : nat) (children : list OutlineNode).
Local Set Elimination Schemes.

Fixpoint preorder_levels (n : OutlineNode) : list nat :=
  match n with
  | Node level children => level :: flat_map preorder_levels children
  end.

(** The tree the specification expects for headings of levels 1, 2, 3, 2, 1. *)
Definition nesting_12321 : list OutlineNode :=
  [ Node 1 [ Node 2 [ Node 3 [] ]; Node 2 [] ]; Node 1 [] ].

(** The scan of the specification's Outline Builder, in its words: the
    lines of the text that start with one to six heading markers and a
    space, each with its level and its label. *)
Fixpoint spec_lines (s : string) : list string :=
  match s with
  | EmptyString => [EmptyString]
  | String c s' =>
      if Ascii.eqb c LF then EmptyString :: spec_lines s'
      else match spec_lines s' with
           | l :: ls => String c l :: ls
           | [] => [String c EmptyString]
           end
  end.

Fixpoint spec_markers (l : string) : nat * string :=
  match l with
  | String "#" l' => let (n, rest) := spec_markers l' in (S n, rest)
  | _ => (0, l)
  end.

Definition spec_heading (l : string) : option (nat * string) :=
  match spec_markers l with
  | (n, String " " label) =>
      if Nat.leb 1 n && Nat.leb n 6 then Some (n, label) else None
  | _ => None
  end.

Definition spec_headings (text : string) : list (nat * string) :=
  flat_map (fun l => match spec_heading l with Some h => [h] | None => [] end)
           (spec_lines text).

(** The level an outline link shows: its left padding, four units a level. *)
Definition entry_level (e : nat * string) : nat := S (fst e / 4).

(** The documents of the examples: one fence each, with sources A and B, a
    fence with nothing between its markers, and five headings of levels
    1, 2, 3, 2, 1. *)
Definition doc_A : string := fence_open ++ "A" ++ fence_close.
Definition doc_B : string := fence_open ++ "B" ++ fence_close.
Definition doc_empty_fence : string := fence_open ++ fence_close.
Definition doc_12321 : string :=
  String.concat nl ["# A"; "## B"; "### C"; "## D"; "# E"].

(** ** Further vocabulary: the workbench *)

(** A match object moved [d] characters to the right. *)
Definition shift_index (d : nat) (m : RegExpMatch) : RegExpMatch :=
  mkMatch (d + index m) (full m) (group1 m).

(** A document put together from diagram sources: before each fenced
    source some text, and some text after the last. *)
Fixpoint document (parts : list (string * string)) (tail : string) : string :=
  match parts with
  | [] => tail
  | (pre, body) :: parts' =>
      pre ++ fence_open ++ body ++ fence_close ++ document parts' tail
  end.

Definition fence_free (s : string) : bool := all_chars (is_not "`"%char) s.

(** The value the editor reported last, and the tab chosen last, in a
    sequence of events. *)
Fixpoint last_edit (evs : list Event) : option JsValue :=
  match evs with
  | [] => None
  | ev :: evs' =>
      match last_edit evs' with
      | Some v => Some v
      | None => match ev with EditorChange v => Some v | _ => None end
      end
  end.

Fixpoint last_tab (evs : list Event) : option Tab :=
  match evs with
  | [] => None
  | ev :: evs' =>
      match last_tab evs' with
      | Some t => Some t
      | None => match ev with TabChange t => Some t | _ => None end
      end
  end.

(** Numbers that grow strictly, from [lo] on. *)
Fixpoint ascending (lo : nat) (l : list nat) : Prop :=
  match l with
  | [] => True
  | x :: l' => lo <= x /\ ascending (S x) l'
  end.

(** The renders in flight were started at revisions that grow strictly,
    none later than the current one. *)
Definition in_flight_ordered (st : Workbench) : Prop :=
  ascending 0 (map issued_at (pending st)) /\
  Forall (fun t => issued_at t <= revision st) (pending st).

(** The number of occurrences of a character. *)
Fixpoint count_char (c : ascii) (s : string) : nat :=
  match s with
  | EmptyString => 0
  | String d s' => (if Ascii.eqb d c then 1 else 0) + count_char c s'
  end.

(** ** The AI Oracle panel *)

Module AIOracle.

(** WhiteSpace and LineTerminator among the 8-bit code units: what
    [String.prototype.trim] strips. *)
Definition is_white_space (c : ascii) : bool :=
  Ascii.eqb c "009" || Ascii.eqb c "010" || Ascii.eqb c "011" || Ascii.eqb c "012"
  || Ascii.eqb c "013" || Ascii.eqb c " " || Ascii.eqb c "160".

Fixpoint trimStart (s : string) : string :=
  match s with
  | EmptyString => EmptyString
  | String c s' => if is_white_space c then trimStart s' else s
  end.

Fixpoint trimEnd (s : string) : string :=
  match s with
  | EmptyString => EmptyString
  | String c s' =>
      match trimEnd s' with
      | EmptyString => if is_white_space c then EmptyString else String c EmptyString
      | String d r => String c (String d r)
      end
  end.

Definition trim (s : string) : string := trimEnd (trimStart s).

(** The two [useState] cells, and the number of [setTimeout] callbacks that
    have not run yet. *)
Record Panel : Type := mkPanel {
  query : string;
  isLoading : bool;
  timeouts : nat
}.

Definition initial : Panel := mkPanel EmptyString false 0.

Definition setQuery (q : string) (st : Panel) : Panel :=
  mkPanel q (isLoading st) (timeouts st).

Definition setIsLoading (b : bool) (st : Panel) : Panel :=
  mkPanel (query st) b (timeouts st).

Definition setTimeout (st : Panel) : Panel :=
  mkPanel (query st) (isLoading st) (S (timeouts st)).

(** [handleSubmit]: nothing for a query that trims to the empty string;
    otherwise the loading flag is set and the callback scheduled. *)
Definition handleSubmit (st : Panel) : Panel :=
  if String.eqb (trim (query st)) EmptyString
  then st
  else setTimeout (setIsLoading true st).

(** The callback of [setTimeout]. *)
Definition callback (st : Panel) : Panel :=
  setQuery EmptyString (setIsLoading false st).

(** What can happen to the panel: the input reports a value, the form is
    submitted, a scheduled callback runs. The submit button is disabled
    while [isLoading] holds, and a form whose submit button is disabled is
    not submitted. *)
Inductive Event : Type :=
| InputChange (value : string)
| FormSubmit
| TimeoutFires.

Definition step (st : Panel) (ev : Event) : Panel :=
  match ev with
  | InputChange value => setQuery value st
  | FormSubmit => if isLoading st then st else handleSubmit st
  | TimeoutFires =>
      match timeouts st with
      | O => st
      | S n => callback (mkPanel (query st) (isLoading st) n)
      end
  end.

Definition run (st : Panel) (evs : list Event) : Panel := fold_left step evs st.

(** No processing is going on. *)
Definition idle (st : Panel) : Prop :=
  isLoading st = false /\ timeouts st = 0.

(** The loading flag is set exactly while one callback is scheduled. *)
Definition loading_matches_timeouts (st : Panel) : Prop :=
  timeouts st = (if isLoading st then 1 else 0).

End AIOracle.

(** ** The build-and-push script *)

Module BuildAndPush.

Definition SERVICES : list string :=
  ["frontend"; "api-gateway"; "ai-oracle"; "knowledge-hub"; "collaboration-engine";
   "integration-layer"].

(** *** Values of variables and their expansion without quotes *)

Definition TAB : ascii := "009"%char.

(** The characters of the default IFS. The shell sets IFS to them when it
    starts, and the script does not assign it. *)
Definition is_ifs (c : ascii) : bool :=
  Ascii.eqb c " " || Ascii.eqb c TAB || Ascii.eqb c LF.

(** Word splitting of an expansion that is not quoted: the words between
    runs of IFS characters; [word] is the word read so far. A value that is
    empty or all white space gives no word at all. *)
Fixpoint word_split_from (word s : string) : list string :=
  match s with
  | EmptyString => if String.eqb word EmptyString then [] else [word]
  | String c s' =>
      if is_ifs c
      then if String.eqb word EmptyString then word_split_from EmptyString s'
           else word :: word_split_from EmptyString s'
      else word_split_from (word ++ String c EmptyString) s'
  end.

Definition word_split (s : string) : list string := word_split_from EmptyString s.

(** After splitting, a word that holds an asterisk, a question mark or an
    opening bracket is a pattern, replaced by the names of the files it
    matches; a backslash is an escape of patterns and of [echo -e]; and no
    value of the shell holds the character 0. Values with none of these are
    expanded to their words as they are. *)
Definition is_special (c : ascii) : bool :=
  Ascii.eqb c "*" || Ascii.eqb c "?" || Ascii.eqb c "[" || Ascii.eqb c "092"
  || Ascii.eqb c "000".

Definition is_literal (s : string) : bool := all_chars (fun c => negb (is_special c)) s.

(** The values the model covers for AZURE_CONTAINER_REGISTRY and for the
    first argument: any text of literal characters, white space, hyphens
    and dots included. *)
Record Value : Type := mkValue {
  text : string;
  text_literal : is_literal text = true
}.

(** *** Lines 7 to 10: the file .env *)

(** What lines 7 to 10 do, run under [set -e] (line 5):
    - there is no file [.env], and nothing is done;
    - [export] fails on one of the words made from the file, as it does on
      a word that is no valid name, and the script ends there;
    - [export] succeeds: it gives AZURE_CONTAINER_REGISTRY a value, the last
      one if the file has several, or leaves the variable as it was. The
      file is taken to leave IFS as it was. *)
Inductive DotEnv : Type :=
| NoFile
| ExportFails
| Exported (registry : option Value).

(** AZURE_CONTAINER_REGISTRY after line 10, given its value in the
    environment the script was started in (empty when unset, which the
    script does not tell apart): the value of the file overrides it. *)
Definition AZURE_CONTAINER_REGISTRY (environ : Value) (dotenv : DotEnv) : string :=
  match dotenv with
  | Exported (Some v) => text v
  | _ => text environ
  end.

(** *** Lines 13 to 14 *)

(** [VERSION=${1:-latest}]: the first argument, or [latest] when it is unset
    or empty. *)
Definition VERSION (arg1 : option Value) : string :=
  match arg1 with
  | Some v => if String.eqb (text v) EmptyString then "latest" else text v
  | None => "latest"
  end.

(** *** Line 62: the name of the registry *)

Definition is_echo_flag (c : ascii) : bool :=
  Ascii.eqb c "n" || Ascii.eqb c "e" || Ascii.eqb c "E".

(** An argument that [echo] takes as options: a hyphen and one or more of
    the letters n, e and E. *)
Definition echo_option (w : string) : bool :=
  match w with
  | String c (String d r) => Ascii.eqb c "-" && all_chars is_echo_flag (String d r)
  | _ => false
  end.

Definition has_n (w : string) : bool := negb (all_chars (is_not "n") w).

Fixpoint join_words (ws : list string) : string :=
  match ws with
  | [] => EmptyString
  | [w] => w
  | w :: rest => w ++ " " ++ join_words rest
  end.

(** [echo]: leading options are taken off, the other arguments are written
    with one space between them, and a line feed unless an option had n.
    The option e changes nothing in words without backslash. *)
Fixpoint echo_from (newline : bool) (args : list string) : string :=
  match args with
  | [] => if newline then nl else EmptyString
  | w :: rest =>
      if echo_option w then echo_from (newline && negb (has_n w)) rest
      else join_words args ++ (if newline then nl else EmptyString)
  end.

Definition echo (args : list string) : string := echo_from true args.

(** [cut -d'.' -f1]: of every line the text before its first dot, the whole
    line when it has none, each followed by a line feed. [keep] tells that
    no dot was read in the line yet, [started] that the line has a character. *)
Fixpoint cut_from (keep started : bool) (s : string) : string :=
  match s with
  | EmptyString => if started then nl else EmptyString
  | String c s' =>
      if Ascii.eqb c LF then String LF (cut_from true false s')
      else if Ascii.eqb c "." then cut_from false true s'
      else if keep then String c (cut_from keep true s')
      else cut_from keep true s'
  end.

Definition cut_d_dot_f1 (s : string) : string := cut_from true false s.

(** [$(...)]: what the command writes, without the line feeds at its end. *)
Fixpoint command_substitution (out : string) : string :=
  match out with
  | EmptyString => EmptyString
  | String c out' =>
      let r := command_substitution out' in
      if Ascii.eqb c LF && String.eqb r EmptyString then EmptyString else String c r
  end.

(** [REGISTRY_NAME=$(echo $AZURE_CONTAINER_REGISTRY | cut -d'.' -f1)] *)
Definition REGISTRY_NAME (registry : string) : string :=
  command_substitution (cut_d_dot_f1 (echo (word_split registry))).

(** *** Lines 72 to 98: the loop *)

Definition DOCKERFILE_PATH (service : string) : string :=
  if String.eqb service "frontend" then "frontend/Dockerfile"
  else "services/" ++ service ++ "/Dockerfile".

Definition BUILD_CONTEXT (service : string) : string :=
  if String.eqb service "frontend" then "frontend" else "services/" ++ service.

Definition IMAGE_NAME (registry service version : string) : string :=
  registry ++ "/" ++ service ++ ":" ++ version.

(** The commands that change something outside the script, with the
    arguments they are run with. *)
Inductive Command : Type :=
| Az (args : list string)
| Docker (args : list string).

(** [az acr login --name $REGISTRY_NAME] *)
Definition az_acr_login (registry : string) : Command :=
  Az (["acr"; "login"; "--name"] ++ word_split (REGISTRY_NAME registry)).

(** [docker build -t $IMAGE_NAME -f $DOCKERFILE_PATH $BUILD_CONTEXT] *)
Definition docker_build (registry version service : string) : Command :=
  Docker (["build"; "-t"] ++ word_split (IMAGE_NAME registry service version)
          ++ ["-f"] ++ word_split (DOCKERFILE_PATH service)
          ++ word_split (BUILD_CONTEXT service)).

(** [docker push $IMAGE_NAME] *)
Definition docker_push (registry version service : string) : Command :=
  Docker (["push"] ++ word_split (IMAGE_NAME registry service version)).

(** The machine the script runs on: whether each command it runs succeeds,
    and which files exist. *)
Record Host : Type := mkHost {
  docker_info : bool;
  command_v_az : bool;
  az_account_show : bool;
  is_file : string -> bool;
  succeeds : Command -> bool
}.

(** The loop over the services, under [set -e]: a service without Dockerfile
    is skipped; a build or push that fails ends the script. The result is
    the commands run and whether the loop got to its end. *)
Fixpoint build_loop (h : Host) (registry version : string) (services : list string)
  : list Command * bool :=
  match services with
  | [] => ([], true)
  | service :: rest =>
      if negb (is_file h (DOCKERFILE_PATH service))
      then build_loop h registry version rest
      else
        let build := docker_build registry version service in
        let push := docker_push registry version service in
        if negb (succeeds h build) then ([build], false)
        else if negb (succeeds h push) then ([build; push], false)
        else let (cs, ok) := build_loop h registry version rest in
             (build :: push :: cs, ok)
  end.

(** *** The script *)

(** The script, given the machine, the value of AZURE_CONTAINER_REGISTRY in
    the environment it is started in, what the file .env does, and the first
    argument. The result is the commands run, in order, and whether the
    script got to its end. *)
Definition script (h : Host) (environ : Value) (dotenv : DotEnv) (arg1 : option Value)
  : list Command * bool :=
  match dotenv with
  | ExportFails => ([], false)
  | _ =>
      let registry := AZURE_CONTAINER_REGISTRY environ dotenv in
      if negb (docker_info h) then ([], false)
      else if negb (command_v_az h) then ([], false)
      else if negb (az_account_show h) then ([], false)
      else if String.eqb registry EmptyString then ([], false)
      else
        let login := az_acr_login registry in
        if negb (succeeds h login) then ([login], false)
        else let (cs, ok) := build_loop h registry (VERSION arg1) SERVICES in
             (login :: cs, ok)
  end.

(** *** Vocabulary *)

(** The build and the push of one service. *)
Definition build_and_push (registry version service : string) : list Command :=
  [docker_build registry version service; docker_push registry version service].

(** The build and the push of one service as the script reads, each
    variable one argument. *)
Definition build_and_push_as_read (registry version service : string) : list Command :=
  [ Docker ["build"; "-t"; IMAGE_NAME registry service version;
            "-f"; DOCKERFILE_PATH service; BUILD_CONTEXT service];
    Docker ["push"; IMAGE_NAME registry service version] ].

(** The four checks before the first command. *)
Definition preflight (h : Host) (registry : string) : bool :=
  docker_info h && command_v_az h && az_account_show h
  && negb (String.eqb registry EmptyString).

(** A text without white space. *)
Definition no_ifs (s : string) : bool := all_chars (fun c => negb (is_ifs c)) s.

(** A label of a host name: not empty, without white space and without dot. *)
Definition label (s : string) : bool :=
  negb (String.eqb s EmptyString) && no_ifs s && all_chars (is_not ".") s.

(** Values and hosts for the examples: a checkout with the Dockerfile of
    the frontend only, on which every command succeeds, or on which pushing
    fails. *)
Definition acme : Value := mkValue "acme.azurecr.io" eq_refl.
Definition other : Value := mkValue "other.azurecr.io" eq_refl.
Definition unset : Value := mkValue EmptyString eq_refl.

Definition frontend_only (p : string) : bool := String.eqb p "frontend/Dockerfile".

Definition good_host : Host := mkHost true true true frontend_only (fun _ => true).


End BuildAndPush.

(** ** Facts about strings *)

Section StringFacts.

Lemma append_assoc (a b c : string) : (a ++ b) ++ c = a ++ (b ++ c).
Proof. induction a as [|x a IH]; simpl; [reflexivity | now rewrite IH]. Qed.

Lemma append_nil_r (a : string) : a ++ EmptyString = a.
Proof. induction a as [|x a IH]; simpl; [reflexivity | now rewrite IH]. Qed.

Lemma length_append (a b : string) :
  String.length (a ++ b) = String.length a + String.length b.
Proof. induction a as [|x a IH]; simpl; [reflexivity | now rewrite IH]. Qed.

Lemma strip_prefix_app (p r : string) : strip_prefix p (p ++ r) = Some r.
Proof.
  induction p as [|x p IH]; simpl; [reflexivity|].
  now rewrite Ascii.eqb_refl.
Qed.


Lemma strip_prefix_Some (p s r : string) :
  strip_prefix p s = Some r -> s = p ++ r.
Proof.
  revert s; induction p as [|x p IH]; intros s H; simpl in *.
  - congruence.
  - destruct s as [|y s]; [discriminate|].
    destruct (Ascii.eqb_spec x y) as [->|]; [|discriminate].
    now rewrite (IH _ H).
Qed.

Lemma all_chars_app (p : ascii -> bool) (a b : string) :
  all_chars p (a ++ b) = all_chars p a && all_chars p b.
Proof.
  induction a as [|x a IH]; simpl; [reflexivity|].
  now rewrite IH, andb_assoc.
Qed.

Lemma all_chars_weaken (p q : ascii -> bool) (s : string) :
  (forall c, p c = true -> q c = true) ->
  all_chars p s = true -> all_chars q s = true.
Proof.
  intros Hpq; induction s as [|x s IH]; simpl; [reflexivity|].
  rewrite !andb_true_iff; intros [Hx Hs]; auto.
Qed.

Lemma substring_prefix (a b : string) :
  substring 0 (String.length a) (a ++ b) = a.
Proof.
  induction a as [|x a IH]; simpl.
  - destruct b; reflexivity.
  - now rewrite IH.
Qed.

End StringFacts.

(** ** Facts about the combinators *)

Section CombinatorFacts.

Context {A : Type}.

Lemma lit_app (p r : string) (k : cont A) : lit p k (p ++ r) = k r.
Proof. unfold lit. now rewrite strip_prefix_app. Qed.

Lemma lit_Some (p s : string) (k : cont A) (a : A) :
  lit p k s = Some a -> exists r, s = p ++ r /\ k r = Some a.
Proof.
  unfold lit. destruct (strip_prefix p s) as [r|] eqn:E; [|discriminate].
  intros H. exists r. split; [now apply strip_prefix_Some | assumption].
Qed.

(** A literal fails on an input that starts with another character. *)
Lemma lit_first_char (a c : ascii) (p s : string) (k : cont A) :
  Ascii.eqb a c = false -> lit (String a p) k (String c s) = None.
Proof. intros H. unfold lit. simpl. now rewrite H. Qed.

(** What a successful lazy star returns: the capture is in the class, the
    continuation accepts what follows it, and refuses what follows any
    shorter capture. *)
Lemma star_lazy_sound (cls : ascii -> bool) (k : cont A) (s cap : string) (a : A) :
  star_lazy cls k s = Some (cap, a) ->
  exists r,
    s = cap ++ r /\ k r = Some a /\ all_chars cls cap = true /\
    forall p q, s = p ++ q -> String.length p < String.length cap -> k q = None.
Proof.
  revert cap; induction s as [|c s IH]; intros cap H; simpl in H.
  - destruct (k EmptyString) as [a'|] eqn:E; [|discriminate].
    injection H as <- <-. exists EmptyString. repeat split; auto.
    intros p q _ Hlt. simpl in Hlt. lia.
  - destruct (k (String c s)) as [a'|] eqn:E.
    + injection H as <- <-. exists (String c s). repeat split; auto.
      intros p q _ Hlt. simpl in Hlt. lia.
    + destruct (cls c) eqn:Hc; [|discriminate].
      destruct (star_lazy cls k s) as [[cap' a']|] eqn:E'; [|discriminate].
      simpl in H. injection H as <- <-.
      destruct (IH _ eq_refl) as (r & Hs & Hk & Hall & Hmin).
      exists r. repeat split.
      * simpl. now rewrite <- Hs.
      * assumption.
      * simpl. now rewrite Hc, Hall.
      * intros p q Hpq Hlt. destruct p as [|x p]; simpl in *.
        -- now subst q.
        -- injection Hpq as -> Hs'. apply (Hmin p q Hs'). lia.
Qed.

(** A lazy star passes over characters on which the continuation cannot
    start. *)
Lemma star_lazy_skip (cls : ascii -> bool) (k : cont A) (cap r : string) :
  all_chars cls cap = true ->
  (forall p q, cap = p ++ q -> q <> EmptyString -> k (q ++ r) = None) ->
  star_lazy cls k (cap ++ r) =
  match star_lazy cls k r with
  | Some (cap', a) => Some (cap ++ cap', a)
  | None => None
  end.
Proof.
  induction cap as [|c cap IH]; intros Hall Hk.
  - simpl. destruct (star_lazy cls k r) as [[? ?]|]; reflexivity.
  - simpl in Hall. apply andb_true_iff in Hall as [Hc Hall].
    change (String c cap ++ r) with (String c (cap ++ r)).
    cbn [star_lazy].
    change (String c (cap ++ r)) with (String c cap ++ r).
    rewrite (Hk EmptyString (String c cap) eq_refl) by discriminate.
    rewrite Hc, IH; auto.
    + destruct (star_lazy cls k r) as [[? ?]|]; reflexivity.
    + intros p q -> Hq. apply (Hk (String c p) q eq_refl Hq).
Qed.

(** A greedy run of [.] followed by [$] takes the rest of the line. *)
Lemma star_greedy_line (k : cont A) (t r : string) :
  all_chars dot t = true ->
  match r with EmptyString => True | String c _ => is_line_terminator c = true end ->
  star_greedy dot (eol k) (t ++ r) =
  match k r with Some a => Some (t, a) | None => None end.
Proof.
  intros Ht Hr. induction t as [|c t IH].
  - simpl. destruct r as [|c r]; simpl.
    + destruct (k EmptyString); reflexivity.
    + unfold dot at 1. rewrite Hr. simpl. unfold eol. reflexivity.
  - simpl in Ht. apply andb_true_iff in Ht as [Hc Ht].
    change (String c t ++ r) with (String c (t ++ r)).
    cbn [star_greedy]. rewrite Hc, (IH Ht).
    destruct (k r) as [a|]; simpl; [reflexivity|].
    unfold eol. unfold dot in Hc. apply negb_true_iff in Hc. now rewrite Hc.
Qed.

Lemma star_greedy_sound (cls : ascii -> bool) (k : cont A) (s cap : string) (a : A) :
  star_greedy cls k s = Some (cap, a) -> exists r, s = cap ++ r /\ k r = Some a.
Proof.
  revert cap. induction s as [|c s IH]; intros cap H; cbn [star_greedy] in H.
  - destruct (k EmptyString) as [a'|] eqn:E; [|discriminate].
    injection H as <- <-. now exists EmptyString.
  - assert (Hstop : match k (String c s) with Some a0 => Some (EmptyString, a0) | None => None end
                    = Some (cap, a) -> exists r, String c s = cap ++ r /\ k r = Some a).
    { destruct (k (String c s)) as [a'|] eqn:E; [|discriminate].
      intros H'. injection H' as <- <-. now exists (String c s). }
    destruct (cls c); [|now apply Hstop].
    destruct (star_greedy cls k s) as [[cap' a']|] eqn:E; [|now apply Hstop].
    simpl in H. injection H as <- <-.
    destruct (IH _ eq_refl) as (r & -> & Hk). now exists r.
Qed.

End CombinatorFacts.

(** ** The Diagram Extractor *)

Section ExtractorFacts.

Lemma star_lazy_unfold {A} (cls : ascii -> bool) (k : cont A) (s : string) :
  star_lazy cls k s =
  match k s with
  | Some a => Some (EmptyString, a)
  | None =>
      match s with
      | EmptyString => None
      | String c s' => if cls c then capture c (star_lazy cls k s') else None
      end
  end.
Proof. destruct s; reflexivity. Qed.

Lemma mermaidRegex_empty : mermaidRegex EmptyString = None.
Proof. reflexivity. Qed.

(** A match of the Mermaid pattern is an opening marker, a body, and the
    first closing marker after the opening one. *)
Lemma mermaidRegex_Some (s body rest : string) :
  mermaidRegex s = Some (body, rest) ->
  s = fence_open ++ body ++ fence_close ++ rest /\
  forall body' post',
    body ++ fence_close ++ rest = body' ++ fence_close ++ post' ->
    String.length body <= String.length body'.
Proof.
  unfold mermaidRegex. intros H.
  apply lit_Some in H as (r & -> & H).
  apply star_lazy_sound in H as (r' & -> & Hk & _ & Hmin).
  apply lit_Some in Hk as (r'' & -> & Hk).
  unfold accept in Hk. injection Hk as ->.
  split; [reflexivity|].
  intros body' post' E.
  destruct (le_lt_dec (String.length body) (String.length body')) as [|Hlt]; [assumption|].
  specialize (Hmin body' (fence_close ++ post') E Hlt).
  rewrite lit_app in Hmin. discriminate.
Qed.

(** The pattern matches wherever an opening marker is followed, anywhere
    later, by a closing marker. *)
Lemma mermaidRegex_total (b r : string) :
  mermaidRegex (fence_open ++ b ++ fence_close ++ r) <> None.
Proof.
  unfold mermaidRegex. rewrite lit_app.
  induction b as [|c b IH].
  - change (EmptyString ++ fence_close ++ r) with (fence_close ++ r).
    rewrite star_lazy_unfold, lit_app. discriminate.
  - change (String c b ++ fence_close ++ r) with (String c (b ++ fence_close ++ r)).
    rewrite star_lazy_unfold.
    destruct (lit fence_close accept (String c (b ++ fence_close ++ r))); [discriminate|].
    unfold any at 1.
    destruct (star_lazy any (lit fence_close accept) (b ++ fence_close ++ r)) as [[? ?]|];
      [discriminate | contradiction].
Qed.

Lemma mermaidRegex_full (s body rest : string) :
  mermaidRegex s = Some (body, rest) ->
  String.length s - String.length rest = String.length (fence_open ++ body ++ fence_close) /\
  substring 0 (String.length s - String.length rest) s = fence_open ++ body ++ fence_close.
Proof.
  intros H. apply mermaidRegex_Some in H as [-> _].
  assert (E : fence_open ++ body ++ fence_close ++ rest
              = (fence_open ++ body ++ fence_close) ++ rest)
    by now rewrite !append_assoc.
  rewrite E, length_append.
  replace (String.length (fence_open ++ body ++ fence_close) + String.length rest
           - String.length rest)
    with (String.length (fence_open ++ body ++ fence_close)) by lia.
  split; [reflexivity | apply substring_prefix].
Qed.

(** Every match object stands for a match of the pattern at its index. *)
Lemma matchAll_from_In (s : string) :
  forall skip idx m,
    In m (matchAll_from mermaidRegex skip idx s) ->
    exists p r rest,
      s = p ++ r /\ index m = idx + String.length p /\
      mermaidRegex r = Some (group1 m, rest) /\
      full m = fence_open ++ group1 m ++ fence_close.
Proof.
  induction s as [|c s IH]; intros skip idx m H.
  - cbn [matchAll_from] in H. rewrite mermaidRegex_empty in H.
    destruct skip; contradiction.
  - destruct skip as [|k]; cbn [matchAll_from] in H.
    + destruct (mermaidRegex (String c s)) as [[g rest]|] eqn:E.
      * destruct H as [<- | H].
        -- exists EmptyString, (String c s), rest. cbn [index group1 full].
           repeat split; auto.
           destruct (mermaidRegex_full _ _ _ E) as [_ Hf]. exact Hf.
        -- destruct (IH _ _ _ H) as (p & r & rest' & -> & Hi & Hr & Hf).
           exists (String c p), r, rest'. repeat split; auto. simpl. lia.
      * destruct (IH _ _ _ H) as (p & r & rest' & -> & Hi & Hr & Hf).
        exists (String c p), r, rest'. repeat split; auto. simpl. lia.
    + destruct (IH _ _ _ H) as (p & r & rest' & -> & Hi & Hr & Hf).
      exists (String c p), r, rest'. repeat split; auto. simpl. lia.
Qed.

Lemma chained_weaken (ms : list RegExpMatch) (lo lo' : nat) :
  lo <= lo' -> chained lo' ms -> chained lo ms.
Proof. destruct ms; simpl; [auto|]. intros ? [? ?]. split; [lia | assumption]. Qed.

(** The match objects come in document order and do not overlap. *)
Lemma matchAll_from_chained (s : string) :
  forall skip idx, chained (idx + skip) (matchAll_from mermaidRegex skip idx s).
Proof.
  induction s as [|c s IH]; intros skip idx.
  - cbn [matchAll_from]. rewrite mermaidRegex_empty. destruct skip; exact I.
  - destruct skip as [|k]; cbn [matchAll_from].
    + destruct (mermaidRegex (String c s)) as [[g rest]|] eqn:E.
      * destruct (mermaidRegex_full _ _ _ E) as [Hn Hf].
        cbn [chained]. unfold spanStart, spanEnd. cbn [index full].
        split; [lia|].
        rewrite Hf. rewrite Hn.
        assert (Hpos : 1 <= String.length (fence_open ++ group1 (mkMatch idx EmptyString g) ++ fence_close))
          by (rewrite length_append; simpl; lia).
        cbn [group1] in Hpos.
        eapply chained_weaken; [|apply IH]. lia.
      * eapply chained_weaken; [|apply IH]. lia.
    + eapply chained_weaken; [|apply IH]. lia.
Qed.

Lemma chained_adjacent (ms : list RegExpMatch) :
  forall lo k b b',
    chained lo ms ->
    nth_error ms k = Some b -> nth_error ms (S k) = Some b' ->
    spanEnd b <= spanStart b'.
Proof.
  induction ms as [|m ms IH]; intros lo k b b' Hc Hb Hb'.
  - destruct k; discriminate.
  - destruct Hc as [_ Hc]. destruct k as [|k].
    + injection Hb as <-. destruct ms as [|m' ms]; [discriminate|].
      injection Hb' as <-. apply Hc.
    + apply (IH _ k b b' Hc); assumption.
Qed.

(** No place where the pattern matches is left outside the spans. *)
Lemma matchAll_from_covers (s : string) :
  forall skip idx p r,
    s = p ++ r -> skip <= String.length p -> mermaidRegex r <> None ->
    exists m,
      In m (matchAll_from mermaidRegex skip idx s) /\
      spanStart m <= idx + String.length p < spanEnd m.
Proof.
  induction s as [|c s IH]; intros skip idx p r Hs Hskip Hr.
  - destruct p; [|discriminate]. simpl in Hs. subst r.
    now rewrite mermaidRegex_empty in Hr.
  - destruct skip as [|k]; cbn [matchAll_from].
    + destruct (mermaidRegex (String c s)) as [[g rest]|] eqn:E.
      * destruct (mermaidRegex_full _ _ _ E) as [Hn Hf].
        set (n := String.length (String c s) - String.length rest) in *.
        destruct (le_lt_dec n (String.length p)) as [Hge|Hlt].
        -- assert (Hpos : 1 <= n).
           { rewrite Hn, length_append. simpl. lia. }
           destruct p as [|x p]; [simpl in Hge; lia|].
           simpl in Hs. injection Hs as <- Hs.
           destruct (IH (n - 1) (S idx) p r Hs) as (m & Hin & Hm); auto.
           { simpl in Hge. lia. }
           exists m. split; [now right|]. simpl. lia.
        -- exists (mkMatch idx (substring 0 n (String c s)) g). split; [now left|].
           unfold spanStart, spanEnd. cbn [index full].
           rewrite Hf, <- Hn. lia.
      * destruct p as [|x p].
        -- simpl in Hs. subst r. contradiction.
        -- simpl in Hs. injection Hs as <- Hs.
           destruct (IH 0 (S idx) p r Hs) as (m & Hin & Hm); auto; [lia|].
           exists m. split; [assumption|]. simpl. lia.
    + destruct p as [|x p]; [simpl in Hskip; lia|].
      simpl in Hs. injection Hs as <- Hs.
      destruct (IH k (S idx) p r Hs) as (m & Hin & Hm); auto.
      { simpl in Hskip. lia. }
      exists m. split; [assumption|]. simpl. lia.
Qed.

End ExtractorFacts.

(** C5. For every document text, [extract] returns the diagram-tagged fences
    in document order: each block, whose ordinal index is its position in
    the result, is a fence of the text whose source text is the inner
    content without the markers and whose span is the whole fenced region;
    consecutive blocks do not overlap; and every place of the text where an
    opening marker is followed by a closing marker lies in the span of a
    block, so that the blocks are exactly the fences that are not inside
    another one. *)
Theorem extract_blocks_in_document_order (text : string) :
  (forall k b,
      nth_error (extract text) k = Some b ->
      fence_at text (spanStart b) (sourceText b) /\
      spanEnd b = spanStart b + String.length (fence_open ++ sourceText b ++ fence_close)) /\
  (forall k b b',
      nth_error (extract text) k = Some b ->
      nth_error (extract text) (S k) = Some b' ->
      spanEnd b <= spanStart b') /\
  (forall pre body post,
      text = pre ++ fence_open ++ body ++ fence_close ++ post ->
      exists b, In b (extract text) /\ spanStart b <= String.length pre < spanEnd b).
Proof.
  unfold extract, matchAll. repeat split.
  - apply nth_error_In in H.
    apply matchAll_from_In in H as (p & r & rest & Hs & Hi & Hr & Hf).
    apply mermaidRegex_Some in Hr as [-> Hmin].
    exists p, rest. repeat split; auto.
  - apply nth_error_In in H.
    apply matchAll_from_In in H as (p & r & rest & Hs & Hi & Hr & Hf).
    unfold spanEnd, spanStart, sourceText. now rewrite Hf.
  - intros k b b'. apply (chained_adjacent _ (0 + 0)). apply matchAll_from_chained.
  - intros pre body post Hs.
    destruct (matchAll_from_covers text 0 0 pre (fence_open ++ body ++ fence_close ++ post) Hs)
      as (m & Hin & Hm).
    + lia.
    + apply mermaidRegex_total.
    + exists m. split; [assumption|]. simpl in Hm. exact Hm.
Qed.

(** ** The Workbench Controller *)

Section ControllerFacts.

Lemma extractMermaidDiagrams_content (st : Workbench) :
  content (extractMermaidDiagrams st) = content st.
Proof.
  unfold extractMermaidDiagrams.
  destruct (matchAll mermaidRegex (content st)); reflexivity.
Qed.

Lemma or_empty_string (s : string) : or_empty (JsString s) = s.
Proof.
  unfold or_empty, ToBoolean.
  destruct (String.eqb_spec s EmptyString) as [->|]; reflexivity.
Qed.

Lemma commit_content (before after : Workbench) :
  content (commit before after) = content after.
Proof.
  unfold commit. destruct (String.eqb (content after) (content before)); [reflexivity|].
  now rewrite extractMermaidDiagrams_content.
Qed.

(** A state update that keeps the text does not run the effect. *)
Lemma commit_same (before after : Workbench) :
  content after = content before -> commit before after = after.
Proof. intros E. unfold commit. now rewrite E, String.eqb_refl. Qed.

(** A state update that changes the text runs the effect at the next
    revision. *)
Lemma commit_changed (before after : Workbench) :
  content after <> content before ->
  commit before after = extractMermaidDiagrams (next_revision after).
Proof.
  intros H. unfold commit.
  destruct (String.eqb_spec (content after) (content before)); [contradiction | reflexivity].
Qed.

Lemma step_settled (st : Workbench) (k : nat) (task : Task) (o : Outcome) :
  nth_error (pending st) k = Some task ->
  step st (RenderSettled k o) = resume o (drop_task k st).
Proof.
  intros H. cbn [step]. rewrite H. apply commit_same. destruct o; reflexivity.
Qed.

End ControllerFacts.

(** C1, as stated, fails. After two edits (revisions 1 and 2) the render of
    revision 2 settles and its markup is committed; when the render of the
    superseded revision 1 settles afterwards, its markup replaces the
    committed one. *)
Lemma stale_render_overwrites :
  let st1 := run mount [EditorChange (JsString doc_A); EditorChange (JsString doc_B)] in
  let st2 := step st1 (RenderSettled 2 (Resolved "<svg>B</svg>")) in
  let st3 := step st2 (RenderSettled 1 (Resolved "<svg>A</svg>")) in
  map issued_at (pending st1) = [0; 1; 2] /\
  nth_error (pending st1) 2 = Some (mkTask 2 "B") /\
  revision st2 = 2 /\
  content st2 = doc_B /\
  diagramHtml st2 = "<svg>B</svg>" /\
  nth_error (pending st2) 1 = Some (mkTask 1 "A") /\
  revision st3 = 2 /\
  content st3 = doc_B /\
  diagramHtml st3 = "<svg>A</svg>".
Proof. vm_compute. repeat split. Qed.

(** C1, amended. When a render settles, its result is applied to the view
    state whatever revision made the call, also a superseded one: the
    diagram markup is that of the render that settled last. The text and
    the revision stay as they are. *)
Theorem settled_render_is_applied (st : Workbench) (k : nat) (task : Task) (o : Outcome) :
  nth_error (pending st) k = Some task ->
  let st' := step st (RenderSettled k o) in
  diagramHtml st' = match o with Resolved svg => svg | Rejected _ => render_error end /\
  content st' = content st /\
  revision st' = revision st /\
  pending st' = remove_nth k (pending st).
Proof.
  intros H. cbn zeta. rewrite (step_settled _ _ _ _ H). destruct o; repeat split.
Qed.

Lemma settled_render_is_applied_witness :
  let st2 := run mount [EditorChange (JsString doc_A);
                        EditorChange (JsString doc_B);
                        RenderSettled 2 (Resolved "<svg>B</svg>")] in
  issued_at (mkTask 1 "A") < revision st2 /\
  diagramHtml (step st2 (RenderSettled 1 (Resolved "<svg>A</svg>"))) = "<svg>A</svg>".
Proof.
  split.
  - vm_compute. lia.
  - apply (settled_render_is_applied _ 1 (mkTask 1 "A") (Resolved "<svg>A</svg>")).
    vm_compute. reflexivity.
Defined.

(** C2, as stated, fails. For a fence with nothing between its markers the
    source text is empty, and the rendering service is called with it; the
    diagram markup is not set to any failure message by the call. *)
Lemma empty_source_is_rendered :
  let st := step mount (EditorChange (JsString doc_empty_fence)) in
  map sourceText (extract doc_empty_fence) = [EmptyString] /\
  calls st = EmptyString :: calls mount /\
  pending st = (pending mount ++ [mkTask 1 EmptyString])%list /\
  diagramHtml st = diagramHtml mount.
Proof. vm_compute. repeat split. Qed.

(** C2, amended. A first diagram block whose source text is empty is handed
    to the rendering service like any other: the edit that brings it calls
    the service once, with the empty source, and leaves the diagram markup
    as it is until the call settles. *)
Theorem empty_source_calls_service (st : Workbench) (value : JsValue)
    (b : RegExpMatch) (bs : list RegExpMatch) :
  or_empty value <> content st ->
  extract (or_empty value) = b :: bs ->
  sourceText b = EmptyString ->
  let st' := step st (EditorChange value) in
  calls st' = EmptyString :: calls st /\
  pending st' = (pending st ++ [mkTask (S (revision st)) EmptyString])%list /\
  diagramHtml st' = diagramHtml st.
Proof.
  intros Hne Hex Hsrc. cbn zeta. cbn [step].
  rewrite commit_changed by exact Hne.
  unfold extractMermaidDiagrams, next_revision, handleEditorChange, setContent.
  cbn [content].
  unfold extract in Hex. rewrite Hex.
  unfold sourceText in Hsrc. rewrite Hsrc. repeat split.
Qed.

Lemma empty_source_calls_service_witness :
  calls (step mount (EditorChange (JsString doc_empty_fence))) = EmptyString :: calls mount.
Proof.
  apply (empty_source_calls_service mount (JsString doc_empty_fence)
           (mkMatch 0 doc_empty_fence EmptyString) []).
  - vm_compute. discriminate.
  - vm_compute. reflexivity.
  - reflexivity.
Defined.

(** C3. When a render fails, the rejection is caught: the transition yields
    a state whose diagram markup is the failure message, shown by the
    diagram pane, and the preview and outline panes, the text, the active
    tab and the other renders in flight are what they were. *)
Theorem render_failure_is_a_value (st : Workbench) (k : nat) (task : Task) (error : string) :
  nth_error (pending st) k = Some task ->
  let st' := step st (RenderSettled k (Rejected error)) in
  diagramHtml st' = render_error /\
  diagramPane st' = Some render_error /\
  previewPane st' = previewPane st /\
  outlinePane st' = outlinePane st /\
  content st' = content st /\
  activeTab st' = activeTab st /\
  pending st' = remove_nth k (pending st).
Proof.
  intros H. cbn zeta. rewrite (step_settled _ _ _ _ H). repeat split.
Qed.

Lemma render_failure_is_a_value_witness :
  diagramPane (step (step mount (EditorChange (JsString doc_A)))
                 (RenderSettled 1 (Rejected "Parse error on line 1"))) =
  Some render_error.
Proof.
  apply (render_failure_is_a_value (step mount (EditorChange (JsString doc_A))) 1
           (mkTask 1 "A") "Parse error on line 1").
  vm_compute. reflexivity.
Defined.


(** C9. Switching the active tab changes [activeTab] and nothing else: the
    text, the revision, the diagram markup, the renders in flight, the
    calls made to the rendering service and the three panes are what they
    were. *)
Theorem tab_switch_changes_only_the_tab (st : Workbench) (t : Tab) :
  let st' := step st (TabChange t) in
  activeTab st' = t /\
  content st' = content st /\
  revision st' = revision st /\
  diagramHtml st' = diagramHtml st /\
  pending st' = pending st /\
  calls st' = calls st /\
  previewPane st' = previewPane st /\
  diagramPane st' = diagramPane st /\
  outlinePane st' = outlinePane st /\
  shownPane st' = pane_of t st.
Proof.
  cbn zeta. cbn [step]. rewrite commit_same by reflexivity. repeat split.
Qed.

(** C10. Whatever the editor reports, the stored text is a string: the
    reported string itself, or the empty string when the value is undefined
    or null; the preview is computed from that string. *)
Theorem editor_value_is_coerced (st : Workbench) (value : JsValue) :
  let st' := step st (EditorChange value) in
  content st' = match value with JsString s => s | _ => EmptyString end /\
  previewPane st' =
  renderMarkdown match value with JsString s => s | _ => EmptyString end.
Proof.
  cbn [step]. unfold previewPane. rewrite commit_content.
  unfold handleEditorChange, setContent. cbn [content].
  destruct value; try (split; reflexivity).
  rewrite or_empty_string. split; reflexivity.
Qed.

(** ** The Markdown Projector *)

Section ReplaceFacts.

Variable r : rule.

Lemma replace_from_never (s : string) :
  forall bol, never r bol s -> replace_from r 0 bol s = s.
Proof.
  induction s as [|c s IH]; intros bol [H Hs]; cbn [replace_from]; rewrite H.
  - reflexivity.
  - now rewrite (IH _ Hs).
Qed.

Lemma replace_from_cons_fail (bol : bool) (c : ascii) (s : string) :
  r bol (String c s) = None ->
  replace_from r 0 bol (String c s) = String c (replace_from r 0 (is_line_terminator c) s).
Proof. intros H. cbn [replace_from]. now rewrite H. Qed.

Lemma replace_from_skip (a b : string) :
  forall bol, replace_from r (String.length a) bol (a ++ b) = replace_from r 0 (bol_after bol a) b.
Proof.
  induction a as [|c a IH]; intros bol; [reflexivity|].
  cbn [String.length append replace_from bol_after]. apply IH.
Qed.

Lemma replace_from_match (bol : bool) (c : ascii) (m rest repl : string) :
  r bol (String c m ++ rest) = Some (repl, rest) ->
  replace_from r 0 bol (String c m ++ rest) =
  repl ++ replace_from r 0 (bol_after bol (String c m)) rest.
Proof.
  intros H. change (String c m ++ rest) with (String c (m ++ rest)) in *.
  cbn [replace_from]. rewrite H.
  rewrite length_append.
  replace (Nat.leb (String.length rest) (String.length m + String.length rest)) with true
    by (symmetry; apply Nat.leb_le; lia).
  replace (String.length m + String.length rest - String.length rest) with (String.length m) by lia.
  now rewrite replace_from_skip.
Qed.

Hypothesis r_empty : forall bol, r bol EmptyString = None.

Lemma replace_from_skip_all (s : string) :
  forall k bol, String.length s <= k -> replace_from r k bol s = EmptyString.
Proof.
  induction s as [|c s IH]; intros k bol Hk; cbn [replace_from].
  - rewrite r_empty. destruct k; reflexivity.
  - destruct k as [|k]; [simpl in Hk; lia|]. apply IH. simpl in Hk. lia.
Qed.

(** A match that runs to the end of the input. *)
Lemma replace_from_whole (bol : bool) (c : ascii) (s repl : string) :
  r bol (String c s) = Some (repl, EmptyString) ->
  replace_from r 0 bol (String c s) = repl.
Proof.
  intros H. cbn [replace_from]. rewrite H. cbn [String.length Nat.leb].
  rewrite replace_from_skip_all by lia. apply append_nil_r.
Qed.

End ReplaceFacts.

Section FirstCharacter.

Variable c0 : ascii.
Variable r : rule.
Hypothesis r_starts : starts_with c0 r.

Lemma is_not_eqb (c : ascii) : is_not c0 c = true -> Ascii.eqb c0 c = false.
Proof. unfold is_not. rewrite Ascii.eqb_sym. now intros ->%negb_true_iff. Qed.

Lemma never_without_char (s : string) :
  forall bol, all_chars (is_not c0) s = true -> never r bol s.
Proof.
  induction s as [|c s IH]; intros bol H; cbn [never].
  - split; [apply r_starts | exact I].
  - simpl in H. apply andb_true_iff in H as [Hc Hs].
    split; [apply r_starts; now apply is_not_eqb | now apply IH].
Qed.

Lemma replace_without_char (s : string) :
  all_chars (is_not c0) s = true -> replace r s = s.
Proof. intros H. apply replace_from_never. now apply never_without_char. Qed.

(** The scan copies a prefix that lacks the first character of the
    pattern. *)
Lemma replace_from_plain_prefix (a b : string) :
  forall bol,
    all_chars (is_not c0) a = true ->
    exists bol', replace_from r 0 bol (a ++ b) = a ++ replace_from r 0 bol' b.
Proof.
  induction a as [|c a IH]; intros bol H.
  - exists bol. reflexivity.
  - simpl in H. apply andb_true_iff in H as [Hc Ha].
    destruct (IH (is_line_terminator c) Ha) as [bol' E].
    exists bol'. change (String c a ++ b) with (String c (a ++ b)).
    rewrite replace_from_cons_fail by (apply r_starts; now apply is_not_eqb).
    now rewrite E.
Qed.

End FirstCharacter.

Section RuleFacts.

Lemma heading_rule_starts (m opening closing : string) :
  starts_with "#" (heading_rule (String "#" m) opening closing).
Proof.
  split.
  - intros []; reflexivity.
  - intros [] c s H; unfold heading_rule; [|reflexivity].
    now rewrite lit_first_char.
Qed.

Lemma emphasis_rule_starts (m opening closing : string) :
  starts_with "*" (emphasis_rule (String "*" m) opening closing).
Proof.
  split.
  - reflexivity.
  - intros bol c s H. unfold emphasis_rule. now rewrite lit_first_char.
Qed.

Lemma mermaid_rule_starts : starts_with "`" mermaid_rule.
Proof.
  split.
  - reflexivity.
  - intros bol c s H. unfold mermaid_rule, mermaidRegex, fence_open.
    cbn [append]. now rewrite lit_first_char.
Qed.

Lemma code_rule_starts : starts_with "`" code_rule.
Proof.
  split.
  - reflexivity.
  - intros bol c s H. unfold code_rule. now rewrite lit_first_char.
Qed.

Lemma br_rule_starts : starts_with LF br_rule.
Proof.
  split.
  - reflexivity.
  - intros bol c s H. unfold br_rule, nl. now rewrite lit_first_char.
Qed.

(** The last pass is [nl2br]. *)
Lemma replace_from_br (s : string) :
  forall bol, replace_from br_rule 0 bol s = nl2br s.
Proof.
  induction s as [|c s IH]; intros bol; [reflexivity|].
  cbn [replace_from nl2br]. unfold br_rule at 1, lit, nl, accept. cbn [strip_prefix].
  rewrite (Ascii.eqb_sym LF c).
  destruct (Ascii.eqb c LF).
  - rewrite Nat.leb_refl, Nat.sub_diag. now rewrite IH.
  - now rewrite IH.
Qed.

Lemma nl2br_app (a b : string) : nl2br (a ++ b) = nl2br a ++ nl2br b.
Proof.
  induction a as [|c a IH]; [reflexivity|].
  simpl. destruct (Ascii.eqb c LF); rewrite IH; reflexivity.
Qed.

Lemma nl2br_one_line (s : string) : all_chars (is_not LF) s = true -> nl2br s = s.
Proof.
  induction s as [|c s IH]; [reflexivity|].
  simpl. unfold is_not at 1. intros [Hc Hs]%andb_true_iff.
  apply negb_true_iff in Hc. now rewrite Hc, IH.
Qed.

(** Away from the start of a line no heading rule matches. *)
Lemma heading_never_in_line (m opening closing : string) (s : string) :
  all_chars dot s = true -> never (heading_rule m opening closing) false s.
Proof.
  induction s as [|c s IH]; intros H; cbn [never].
  - split; [reflexivity | exact I].
  - simpl in H. apply andb_true_iff in H as [Hc Hs].
    unfold dot in Hc. apply negb_true_iff in Hc. rewrite Hc.
    split; [reflexivity | now apply IH].
Qed.

Lemma heading_pass_line (m opening closing : string) (s : string) :
  all_chars dot s = true ->
  heading_rule m opening closing true s = None ->
  replace (heading_rule m opening closing) s = s.
Proof.
  intros Hs Hr. apply replace_from_never.
  destruct s as [|c s]; cbn [never]; (split; [assumption|]); [exact I|].
  simpl in Hs. apply andb_true_iff in Hs as [Hc Hs].
  unfold dot in Hc. apply negb_true_iff in Hc. rewrite Hc.
  now apply heading_never_in_line.
Qed.

(** A line that is a marker followed by a text becomes the heading. *)
Lemma heading_pass_match (x : ascii) (m opening closing t : string) :
  all_chars dot t = true ->
  replace (heading_rule (String x m) opening closing) (String x m ++ t) =
  opening ++ t ++ closing.
Proof.
  intros Ht. unfold replace.
  change (String x m ++ t) with (String x (m ++ t)).
  apply replace_from_whole.
  - intros []; reflexivity.
  - change (String x (m ++ t)) with (String x m ++ t).
    unfold heading_rule. rewrite lit_app.
    rewrite <- (append_nil_r t) at 1.
    rewrite star_greedy_line by auto. reflexivity.
Qed.

(** The body of a fence is found by the lazy star when it has no
    backquote. *)
Lemma star_lazy_body (body r : string) :
  all_chars (is_not "`") body = true ->
  star_lazy any (lit fence_close accept) (body ++ fence_close ++ r) = Some (body, r).
Proof.
  intros Hb.
  rewrite star_lazy_skip.
  - change (fence_close ++ r) with (EmptyString ++ fence_close ++ r) at 1.
    change (EmptyString ++ fence_close ++ r) with (fence_close ++ r).
    rewrite star_lazy_unfold, lit_app. unfold accept. now rewrite append_nil_r.
  - apply all_chars_weaken with (p := is_not "`"); auto.
  - intros p q -> Hq. rewrite all_chars_app in Hb. apply andb_true_iff in Hb as [_ Hq'].
    destruct q as [|c q]; [contradiction|].
    simpl in Hq'. apply andb_true_iff in Hq' as [Hc Hq'].
    unfold lit, fence_close, nl. cbn [append strip_prefix].
    destruct (Ascii.eqb LF c); [|reflexivity].
    destruct q as [|d q]; cbn [append strip_prefix].
    + reflexivity.
    + simpl in Hq'. apply andb_true_iff in Hq' as [Hd _].
      unfold is_not in Hd. apply negb_true_iff in Hd.
      rewrite Ascii.eqb_sym, Hd. reflexivity.
Qed.

End RuleFacts.

(** A pass whose rule starts with a character that the text lacks leaves
    the text as it is. *)
Ltac pass_without c0 r H :=
  rewrite (replace_without_char c0 r);
  [ | first [ apply heading_rule_starts | apply emphasis_rule_starts
            | apply mermaid_rule_starts | apply code_rule_starts ]
    | exact H ].

(** *** Heading rules work line by line *)

Section LineFacts.

Variables m opening closing : string.
Hypothesis m_line : all_chars dot m = true.

Let marker : string := String "#" m.
Let r : rule := heading_rule marker opening closing.

Lemma dot_not_terminator (c : ascii) : dot c = true -> is_line_terminator c = false.
Proof. unfold dot. now intros ->%negb_true_iff. Qed.

Lemma marker_line : all_chars dot marker = true.
Proof. unfold marker. simpl. now rewrite m_line. Qed.

Lemma strip_prefix_line_end (p l : string) (c : ascii) (b : string) :
  all_chars dot p = true -> is_line_terminator c = true ->
  strip_prefix p (l ++ String c b) =
  match strip_prefix p l with
  | Some t => Some (t ++ String c b)
  | None => None
  end.
Proof.
  intros Hp Hc. revert l. induction p as [|a p IH]; intros l; [reflexivity|].
  simpl in Hp. apply andb_true_iff in Hp as [Ha Hp].
  destruct l as [|x l]; cbn [append strip_prefix].
  - destruct (Ascii.eqb_spec a c) as [->|]; [|reflexivity].
    apply dot_not_terminator in Ha. congruence.
  - destruct (Ascii.eqb a x); [now apply IH | reflexivity].
Qed.

Lemma star_greedy_whole_line (t : string) :
  all_chars dot t = true -> star_greedy dot (eol accept) t = Some (t, EmptyString).
Proof.
  intros Ht. rewrite <- (append_nil_r t) at 1. now rewrite star_greedy_line.
Qed.

(** On a line, a heading rule matches the whole line or nothing. *)
Lemma heading_rule_line (bol : bool) (l : string) :
  all_chars dot l = true ->
  r bol l = None \/
  exists t, l = marker ++ t /\ bol = true /\ r bol l = Some (opening ++ t ++ closing, EmptyString).
Proof.
  intros Hl. unfold r, heading_rule. destruct bol; [|now left].
  unfold lit. destruct (strip_prefix marker l) as [t|] eqn:E; [|now left].
  apply strip_prefix_Some in E. right. exists t. repeat split; auto.
  rewrite E, all_chars_app in Hl. apply andb_true_iff in Hl as [_ Ht].
  rewrite star_greedy_whole_line by auto. reflexivity.
Qed.

(** What a heading rule does at the start of a line does not depend on
    the lines that follow. *)
Lemma heading_rule_local (bol : bool) (l : string) (c : ascii) (b : string) :
  all_chars dot l = true -> is_line_terminator c = true ->
  r bol (l ++ String c b) =
  match r bol l with
  | Some (repl, _) => Some (repl, String c b)
  | None => None
  end.
Proof.
  intros Hl Hc. unfold r, heading_rule. destruct bol; [|reflexivity].
  unfold lit. rewrite (strip_prefix_line_end marker l c b marker_line Hc).
  destruct (strip_prefix marker l) as [t|] eqn:E; [|reflexivity].
  apply strip_prefix_Some in E.
  rewrite E, all_chars_app in Hl. apply andb_true_iff in Hl as [_ Ht].
  rewrite star_greedy_line, star_greedy_whole_line by auto. reflexivity.
Qed.

Lemma heading_rule_at_break (bol : bool) (c : ascii) (b : string) :
  is_line_terminator c = true -> r bol (String c b) = None.
Proof.
  intros Hc. apply (heading_rule_starts m opening closing).
  destruct (Ascii.eqb_spec "#" c) as [<-|]; [discriminate | reflexivity].
Qed.

Lemma replace_from_at_break (bol : bool) (c : ascii) (b : string) :
  is_line_terminator c = true ->
  replace_from r 0 bol (String c b) = String c (replace_from r 0 true b).
Proof.
  intros Hc. rewrite (replace_from_cons_fail r bol) by now apply heading_rule_at_break.
  now rewrite Hc.
Qed.

Lemma bol_after_line (bol : bool) (x : ascii) (l : string) :
  all_chars dot (String x l) = true -> bol_after bol (String x l) = false.
Proof.
  revert x bol. induction l as [|y l IH]; intros x bol H.
  - simpl in *. apply andb_true_iff in H as [H _]. now apply dot_not_terminator.
  - cbn [all_chars] in H. apply andb_true_iff in H as [_ H].
    change (bol_after (is_line_terminator x) (String y l) = false).
    apply (IH y (is_line_terminator x)). exact H.
Qed.

(** Inside a line the scan copies the rest of the line. *)
Lemma replace_from_in_line (l : string) (c : ascii) (b : string) :
  all_chars dot l = true -> is_line_terminator c = true ->
  replace_from r 0 false (l ++ String c b) = l ++ String c (replace_from r 0 true b).
Proof.
  intros Hl Hc. induction l as [|x l IH].
  - now apply replace_from_at_break.
  - simpl in Hl. apply andb_true_iff in Hl as [Hx Hl].
    change (String x l ++ String c b) with (String x (l ++ String c b)).
    rewrite (replace_from_cons_fail r false) by reflexivity.
    rewrite (dot_not_terminator _ Hx), IH by assumption. reflexivity.
Qed.

(** The pass works line by line. *)
Lemma replace_from_line (bol : bool) (l : string) (c : ascii) (b : string) :
  all_chars dot l = true -> is_line_terminator c = true ->
  replace_from r 0 bol (l ++ String c b) =
  replace_from r 0 bol l ++ String c (replace_from r 0 true b).
Proof.
  intros Hl Hc.
  destruct l as [|x l].
  { change (EmptyString ++ String c b) with (String c b).
    rewrite replace_from_at_break by assumption. cbn [replace_from].
    replace (r bol EmptyString) with (@None (string * string))
      by (destruct bol; reflexivity).
    reflexivity. }
  pose proof (heading_rule_local bol _ c b Hl Hc) as Hloc.
  destruct (heading_rule_line bol _ Hl) as [Hn | (t & Et & -> & Hs)].
  - rewrite Hn in Hloc.
    change (String x l ++ String c b) with (String x (l ++ String c b)) in *.
    rewrite (replace_from_cons_fail r bol x (l ++ String c b) Hloc).
    rewrite (replace_from_cons_fail r bol x l Hn).
    simpl in Hl. apply andb_true_iff in Hl as [Hx Hl].
    rewrite (dot_not_terminator _ Hx).
    rewrite replace_from_in_line by assumption.
    rewrite (replace_from_never r l false) by now apply heading_never_in_line.
    reflexivity.
  - rewrite Hs in Hloc.
    rewrite (replace_from_match r true x l (String c b) _ Hloc).
    assert (Hempty : forall bol, r bol EmptyString = None) by (intros []; reflexivity).
    rewrite (replace_from_whole r Hempty true x l _ Hs).
    rewrite (bol_after_line _ _ _ Hl).
    rewrite replace_from_at_break by assumption.
    now rewrite !append_assoc.
Qed.

Lemma heading_rule_empty (bol : bool) : r bol EmptyString = None.
Proof. destruct bol; reflexivity. Qed.

(** Lines before and after do not change what the pass makes of a line. *)
Lemma replace_lines_before (pre rest : string) :
  lines_ended pre ->
  replace r (pre ++ rest) = replace r pre ++ replace r rest.
Proof.
  unfold replace. induction 1 as [|l c s Hl Hc Hs IH].
  - cbn [append replace_from]. now rewrite heading_rule_empty.
  - rewrite append_assoc. change (String c s ++ rest) with (String c (s ++ rest)).
    rewrite !replace_from_line by assumption.
    now rewrite IH, !append_assoc.
Qed.

Lemma replace_lines_after (l post : string) :
  all_chars dot l = true -> starts_with_break post = true ->
  replace r (l ++ post) = replace r l ++ replace r post.
Proof.
  unfold replace. intros Hl Hp. destruct post as [|c b].
  - cbn [replace_from]. now rewrite heading_rule_empty, !append_nil_r.
  - simpl in Hp. rewrite replace_from_line, replace_from_at_break by assumption.
    reflexivity.
Qed.

Lemma replace_starts_with_break (post : string) :
  starts_with_break post = true -> starts_with_break (replace r post) = true.
Proof.
  unfold replace. destruct post as [|c b]; intros Hp.
  - cbn [replace_from]. now rewrite heading_rule_empty.
  - simpl in Hp. now rewrite replace_from_at_break.
Qed.

(** A match of a heading rule is the marker and the text it wraps. *)
Lemma heading_rule_Some (bol : bool) (s repl rest : string) :
  r bol s = Some (repl, rest) ->
  exists t, s = marker ++ t ++ rest /\ repl = opening ++ t ++ closing.
Proof.
  unfold r, heading_rule. destruct bol; [|discriminate].
  destruct (lit marker (star_greedy dot (eol accept)) s) as [[t rest']|] eqn:E; [|discriminate].
  intros H. injection H as <- <-.
  apply lit_Some in E as (s' & -> & E).
  apply star_greedy_sound in E as (r' & -> & E).
  exists t. split; [|reflexivity].
  unfold eol, accept in E. destruct r' as [|c r']; [congruence|].
  destruct (is_line_terminator c); congruence.
Qed.

Section Preserved.

Variable p : ascii -> bool.
Hypothesis opening_p : all_chars p opening = true.
Hypothesis closing_p : all_chars p closing = true.

(** The pass adds the tags and nothing else. *)
Lemma replace_from_preserves (s : string) :
  forall skip bol,
    all_chars p s = true -> all_chars p (replace_from r skip bol s) = true.
Proof.
  induction s as [|c s IH]; intros skip bol Hs.
  - cbn [replace_from]. rewrite heading_rule_empty. destruct skip; reflexivity.
  - pose proof Hs as Hs'. simpl in Hs'. apply andb_true_iff in Hs' as [Hc Hs'].
    destruct skip as [|k]; cbn [replace_from]; [|now apply IH].
    destruct (r bol (String c s)) as [[repl rest]|] eqn:E.
    + apply heading_rule_Some in E as (t & Es & ->).
      rewrite Es, !all_chars_app in Hs.
      apply andb_true_iff in Hs as [_ [Ht _]%andb_true_iff].
      destruct (Nat.leb (String.length rest) (String.length s)).
      * rewrite !all_chars_app, opening_p, Ht, closing_p. now apply IH.
      * rewrite !all_chars_app, opening_p, Ht, closing_p. simpl.
        rewrite Hc. now apply IH.
    + simpl. rewrite Hc. now apply IH.
Qed.

End Preserved.

Hypothesis opening_line : all_chars dot opening = true.
Hypothesis closing_line : all_chars dot closing = true.

Lemma replace_lines_ended (pre : string) :
  lines_ended pre -> lines_ended (replace r pre).
Proof.
  unfold replace. induction 1 as [|l c s Hl Hc Hs IH].
  - cbn [replace_from]. rewrite heading_rule_empty. constructor.
  - rewrite replace_from_line by assumption.
    constructor; auto. now apply replace_from_preserves.
Qed.

(** The pass, line by line, around a line. *)
Lemma replace_around_line (pre l post : string) :
  lines_ended pre -> all_chars dot l = true -> starts_with_break post = true ->
  replace r (pre ++ l ++ post) = replace r pre ++ replace r l ++ replace r post /\
  lines_ended (replace r pre) /\
  all_chars dot (replace r l) = true /\
  starts_with_break (replace r post) = true.
Proof.
  intros Hpre Hl Hpost. repeat split.
  - now rewrite replace_lines_before, replace_lines_after.
  - now apply replace_lines_ended.
  - now apply replace_from_preserves.
  - now apply replace_starts_with_break.
Qed.

End LineFacts.

Lemma ends_with_break_lines (s : string) :
  ends_with_break s = true -> lines_ended s.
Proof.
  induction s as [|x s IH]; intros H; [constructor|].
  cbn [ends_with_break] in H. destruct s as [|y s].
  - apply (lines_more EmptyString x EmptyString); auto using lines_none.
  - specialize (IH H).
    destruct (is_line_terminator x) eqn:Hx.
    + now apply (lines_more EmptyString x (String y s)).
    + inversion IH as [|l c s' Hl Hc Hs' E]. 
      rewrite <- E in *.
      change (String x (l ++ String c s')) with (String x l ++ String c s').
      constructor; auto. simpl. unfold dot at 1. now rewrite Hx, Hl.
Qed.

Section ProjectorFacts.

Lemma plain_split (s : string) :
  all_chars plain s = true ->
  all_chars (is_not "*") s = true /\ all_chars (is_not "`") s = true.
Proof.
  intros H. split; revert H; apply all_chars_weaken; unfold plain;
    intros c [? ?]%andb_true_iff; assumption.
Qed.

Lemma heading_text_split (t : string) :
  all_chars heading_text t = true ->
  all_chars dot t = true /\ all_chars plain t = true.
Proof.
  intros H. split; revert H; apply all_chars_weaken; unfold heading_text;
    intros c [? ?]%andb_true_iff; assumption.
Qed.

Lemma dot_one_line (s : string) :
  all_chars dot s = true -> all_chars (is_not LF) s = true.
Proof.
  apply all_chars_weaken. intros c Hc.
  unfold dot, is_line_terminator in Hc. unfold is_not.
  destruct (Ascii.eqb c LF); [discriminate | reflexivity].
Qed.

Lemma headings_preserve (p : ascii -> bool) (text : string) :
  all_chars p (h1_open ++ h1_close ++ h2_open ++ h2_close ++ h3_open ++ h3_close) = true ->
  all_chars p text = true -> all_chars p (headings text) = true.
Proof.
  rewrite !all_chars_app, !andb_true_iff.
  intros (? & ? & ? & ? & ? & ?) Ht.
  unfold headings, replace, h1_rule, h2_rule, h3_rule.
  repeat apply replace_from_preserves; assumption.
Qed.

(** On a text without asterisk or backquote only the heading rules and the
    line breaks act. *)
Lemma renderMarkdown_plain (text : string) :
  all_chars plain text = true -> renderMarkdown text = nl2br (headings text).
Proof.
  intros H.
  assert (Hh : all_chars plain (headings text) = true)
    by (apply headings_preserve; [reflexivity | assumption]).
  apply plain_split in Hh as [Hstar Htick].
  unfold renderMarkdown. fold (headings text).
  pass_without "*"%char strong_rule Hstar.
  pass_without "*"%char em_rule Hstar.
  pass_without "`"%char mermaid_rule Htick.
  pass_without "`"%char code_rule Htick.
  unfold replace. apply replace_from_br.
Qed.

(** The heading passes work line by line. *)
Lemma headings_around_line (pre l post : string) :
  lines_ended pre -> all_chars dot l = true -> starts_with_break post = true ->
  headings (pre ++ l ++ post) = headings pre ++ headings l ++ headings post.
Proof.
  intros Hpre Hl Hpost. unfold headings, h1_rule, h2_rule, h3_rule.
  destruct (replace_around_line " " h1_open h1_close eq_refl eq_refl eq_refl
              pre l post Hpre Hl Hpost) as (E1 & Hpre1 & Hl1 & Hpost1).
  rewrite E1.
  destruct (replace_around_line "# " h2_open h2_close eq_refl eq_refl eq_refl
              _ _ _ Hpre1 Hl1 Hpost1) as (E2 & Hpre2 & Hl2 & Hpost2).
  rewrite E2.
  destruct (replace_around_line "## " h3_open h3_close eq_refl eq_refl eq_refl
              _ _ _ Hpre2 Hl2 Hpost2) as (E3 & _).
  exact E3.
Qed.

(** A line of one to three markers, a space and a text becomes the heading
    of that level. *)
Lemma headings_line (k : nat) (t : string) :
  1 <= k <= 3 -> all_chars dot t = true ->
  headings (repeat_char "#" k ++ " " ++ t) = heading_open k ++ t ++ heading_close k.
Proof.
  intros Hk Hdot. unfold headings.
  assert (Hline : forall m, all_chars dot m = true -> all_chars dot (m ++ t) = true)
    by (intros m Hm; now rewrite all_chars_app, Hm, Hdot).
  destruct k as [|[|[|[|k]]]]; try lia;
    cbn [repeat_char append heading_open heading_close].
  - change (String "#" (String " " t)) with ("# " ++ t).
    unfold h1_rule at 1. rewrite heading_pass_match by assumption.
    unfold h2_rule, h3_rule.
    rewrite (heading_pass_line "## ");
      [|rewrite !all_chars_app, Hdot; reflexivity|reflexivity].
    rewrite (heading_pass_line "### ");
      [|rewrite !all_chars_app, Hdot; reflexivity|reflexivity].
    reflexivity.
  - change (String "#" (String "#" (String " " t))) with ("## " ++ t).
    unfold h1_rule. rewrite heading_pass_line; [|now apply Hline|reflexivity].
    unfold h2_rule at 1. rewrite heading_pass_match by assumption.
    unfold h3_rule.
    rewrite (heading_pass_line "### ");
      [|rewrite !all_chars_app, Hdot; reflexivity|reflexivity].
    reflexivity.
  - change (String "#" (String "#" (String "#" (String " " t)))) with ("### " ++ t).
    unfold h1_rule. rewrite heading_pass_line; [|now apply Hline|reflexivity].
    unfold h2_rule. rewrite heading_pass_line; [|now apply Hline|reflexivity].
    unfold h3_rule at 1. now rewrite heading_pass_match.
Qed.

Lemma repeat_char_chars (p : ascii -> bool) (c : ascii) (k : nat) :
  p c = true -> all_chars p (repeat_char c k) = true.
Proof. intros Hc. induction k as [|k IH]; [reflexivity|]. simpl. now rewrite Hc, IH. Qed.

(** A line of four markers or more is out of the reach of the three heading
    rules: after the markers each rule asks for, a marker follows where the
    rule asks for a space. *)
Lemma headings_line_deep (k : nat) (t : string) :
  4 <= k -> all_chars dot t = true ->
  headings (repeat_char "#" k ++ " " ++ t) = repeat_char "#" k ++ " " ++ t.
Proof.
  intros Hk Hdot.
  assert (Hline : all_chars dot (repeat_char "#" k ++ " " ++ t) = true).
  { rewrite !all_chars_app, Hdot, repeat_char_chars; reflexivity. }
  destruct k as [|[|[|[|k]]]]; try lia.
  cbn [repeat_char append] in *.
  unfold headings, h1_rule, h2_rule, h3_rule.
  rewrite (heading_pass_line "# "); [|assumption|reflexivity].
  rewrite (heading_pass_line "## "); [|assumption|reflexivity].
  rewrite (heading_pass_line "### "); [|assumption|reflexivity].
  reflexivity.
Qed.

(** The projection of a line between whole lines, in a text without
    asterisk or backquote, from what the heading rules make of the line. *)
Lemma render_around_line (pre l res post : string) :
  all_chars plain pre = true -> ends_with_break pre = true ->
  all_chars plain post = true -> starts_with_break post = true ->
  all_chars plain l = true -> all_chars dot l = true ->
  headings l = res -> all_chars (is_not LF) res = true ->
  renderMarkdown (pre ++ l ++ post) = renderMarkdown pre ++ res ++ renderMarkdown post.
Proof.
  intros Hpre Hpre' Hpost Hpost' Hlp Hld Hres Hlf.
  rewrite !renderMarkdown_plain; try assumption.
  - rewrite headings_around_line; auto using ends_with_break_lines.
    now rewrite Hres, !nl2br_app, (nl2br_one_line res Hlf).
  - rewrite !all_chars_app. now rewrite Hpre, Hlp, Hpost.
Qed.

End ProjectorFacts.

(** C7, as stated, fails from level 4 on: a line with four heading markers
    comes out as it went in, and is no heading element. *)
Lemma heading_level_4_is_plain_text :
  renderMarkdown "#### Title" = "#### Title" /\
  strip_prefix "<h" (renderMarkdown "#### Title") = None.
Proof. vm_compute. split; reflexivity. Qed.

(** C7, amended. For k from 1 to 3, every line of k heading markers, a
    space and a heading text is projected to the heading element of level k
    around that text, where it stands in the document; a line with four
    markers or more, so also one with four to six, is no heading: it is
    left as the plain text it is. In both cases the lines before and after
    are projected as they are on their own. This holds for texts without
    asterisk or backquote, on which no emphasis or fence rule acts. *)
Theorem heading_levels_1_to_3 (k : nat) (pre t post : string) :
  all_chars heading_text t = true ->
  all_chars plain pre = true -> ends_with_break pre = true ->
  all_chars plain post = true -> starts_with_break post = true ->
  (1 <= k <= 3 ->
   renderMarkdown (pre ++ (repeat_char "#" k ++ " " ++ t) ++ post) =
   renderMarkdown pre ++ (heading_open k ++ t ++ heading_close k) ++ renderMarkdown post) /\
  (4 <= k ->
   renderMarkdown (pre ++ (repeat_char "#" k ++ " " ++ t) ++ post) =
   renderMarkdown pre ++ (repeat_char "#" k ++ " " ++ t) ++ renderMarkdown post).
Proof.
  intros Ht Hpre Hpre' Hpost Hpost'.
  destruct (heading_text_split t Ht) as [Hdot Hplain].
  assert (Hlp : all_chars plain (repeat_char "#" k ++ " " ++ t) = true).
  { rewrite !all_chars_app, Hplain, repeat_char_chars; reflexivity. }
  assert (Hld : all_chars dot (repeat_char "#" k ++ " " ++ t) = true).
  { rewrite !all_chars_app, Hdot, repeat_char_chars; reflexivity. }
  split; intros Hk; apply render_around_line; try assumption.
  - now apply headings_line.
  - rewrite !all_chars_app, (dot_one_line t Hdot).
    destruct k as [|[|[|k]]]; reflexivity.
  - now apply headings_line_deep.
  - now apply dot_one_line.
Qed.

Lemma heading_levels_1_to_3_witness :
  renderMarkdown (("# Notes" ++ nl) ++ (repeat_char "#" 2 ++ " " ++ "System Architecture")
                  ++ (nl ++ "Text")) =
  renderMarkdown ("# Notes" ++ nl) ++
  (heading_open 2 ++ "System Architecture" ++ heading_close 2) ++
  renderMarkdown (nl ++ "Text") /\
  renderMarkdown (("# Notes" ++ nl) ++ (repeat_char "#" 5 ++ " " ++ "System Architecture")
                  ++ (nl ++ "Text")) =
  renderMarkdown ("# Notes" ++ nl) ++
  (repeat_char "#" 5 ++ " " ++ "System Architecture") ++
  renderMarkdown (nl ++ "Text").
Proof.
  split.
  - apply (heading_levels_1_to_3 2 ("# Notes" ++ nl) "System Architecture" (nl ++ "Text")
             eq_refl eq_refl eq_refl eq_refl eq_refl).
    lia.
  - apply (heading_levels_1_to_3 5 ("# Notes" ++ nl) "System Architecture" (nl ++ "Text")
             eq_refl eq_refl eq_refl eq_refl eq_refl).
    lia.
Defined.

Section FenceFacts.

Lemma inert_split (s : string) :
  all_chars inert s = true ->
  all_chars (is_not "#") s = true /\ all_chars (is_not "*") s = true /\
  all_chars (is_not "`") s = true.
Proof.
  intros H. repeat split; revert H; apply all_chars_weaken; unfold inert;
    intros c [[? ?]%andb_true_iff ?]%andb_true_iff; assumption.
Qed.

Lemma inert_line_split (s : string) :
  all_chars inert_line s = true ->
  all_chars inert s = true /\ all_chars dot s = true /\
  all_chars (is_not LF) s = true.
Proof.
  intros H. repeat split; revert H; apply all_chars_weaken; unfold inert_line;
    intros c [? Hc]%andb_true_iff; auto.
  unfold dot, is_line_terminator in Hc. unfold is_not.
  destruct (Ascii.eqb c LF); [discriminate | reflexivity].
Qed.




Variables lang body post : string.
Hypothesis lang_inert : all_chars inert_line lang = true.
Hypothesis body_inert : all_chars inert body = true.
Hypothesis post_inert : all_chars inert post = true.







End FenceFacts.




(** ** The outline *)

(** C8, as stated, fails. The outline pane does not look at the text: after
    the document is replaced by one with five headings of levels 1, 2, 3,
    2, 1, the pane still lists its ten links, and their levels are not
    those of the expected tree. *)
Lemma outline_ignores_the_text :
  let st := step mount (EditorChange (JsString doc_12321)) in
  content st = doc_12321 /\
  map fst (spec_headings doc_12321) = [1; 2; 3; 2; 1] /\
  flat_map preorder_levels nesting_12321 = [1; 2; 3; 2; 1] /\
  map entry_level (outlinePane st) = [1; 2; 2; 2; 3; 3; 3; 3; 2; 2] /\
  map entry_level (outlinePane st) <> flat_map preorder_levels nesting_12321 /\
  outlinePane st = outlinePane mount.
Proof. vm_compute. repeat split. discriminate. Qed.

(** C8, amended. The outline is a fixed list: in every state of the
    workbench it is the headings of the initial document, in order, each
    indented by four units a level below the first. *)
Theorem outline_is_that_of_the_initial_document (st : Workbench) :
  outlinePane st =
  map (fun h => (4 * (fst h - 1), snd h)) (spec_headings initial_content).
Proof. vm_compute. reflexivity. Qed.


(** ** More on the Diagram Extractor *)

Section ExtractorMore.

Variable p : cont (string * string).

Lemma matchAll_from_shift (s : string) :
  forall skip idx d,
    matchAll_from p skip (d + idx) s = map (shift_index d) (matchAll_from p skip idx s).
Proof.
  induction s as [|c s IH]; intros skip idx d; cbn [matchAll_from].
  - destruct skip; [|reflexivity]. destruct (p EmptyString) as [[g r]|]; reflexivity.
  - destruct skip as [|k].
    + destruct (p (String c s)) as [[g r]|]; cbn [map];
        rewrite <- IH, Nat.add_succ_r; reflexivity.
    + rewrite <- IH, Nat.add_succ_r. reflexivity.
Qed.

Lemma matchAll_from_skip (a b : string) :
  forall idx,
    matchAll_from p (String.length a) idx (a ++ b) =
    matchAll_from p 0 (idx + String.length a) b.
Proof.
  induction a as [|c a IH]; intros idx.
  - simpl. now rewrite Nat.add_0_r.
  - cbn [String.length append matchAll_from]. rewrite IH. f_equal. lia.
Qed.

Hypothesis p_backquote : forall c s, Ascii.eqb "`" c = false -> p (String c s) = None.

Lemma matchAll_from_plain_prefix (a b : string) :
  forall idx,
    all_chars (is_not "`") a = true ->
    matchAll_from p 0 idx (a ++ b) = matchAll_from p 0 (idx + String.length a) b.
Proof.
  induction a as [|c a IH]; intros idx H.
  - simpl. now rewrite Nat.add_0_r.
  - simpl in H. apply andb_true_iff in H as [Hc Ha].
    cbn [String.length append matchAll_from].
    rewrite p_backquote by now apply is_not_eqb.
    rewrite IH by assumption. f_equal. lia.
Qed.

End ExtractorMore.

Lemma mermaidRegex_backquote (c : ascii) (s : string) :
  Ascii.eqb "`" c = false -> mermaidRegex (String c s) = None.
Proof.
  intros H. unfold mermaidRegex, fence_open. cbn [append]. now apply lit_first_char.
Qed.

Lemma mermaidRegex_fence (body rest : string) :
  all_chars (is_not "`") body = true ->
  mermaidRegex (fence_open ++ body ++ fence_close ++ rest) = Some (body, rest).
Proof.
  intros H. unfold mermaidRegex. rewrite lit_app. now apply star_lazy_body.
Qed.

(** A text without backquote has no diagram block. *)
Lemma extract_without_backquote (text : string) :
  all_chars (is_not "`") text = true -> extract text = [].
Proof.
  intros H. unfold extract, matchAll.
  rewrite <- (append_nil_r text).
  rewrite (matchAll_from_plain_prefix mermaidRegex mermaidRegex_backquote) by assumption.
  reflexivity.
Qed.

(** The first fence of a text, and the blocks of what follows it. *)
Lemma extract_fence_cons (pre body rest : string) :
  all_chars (is_not "`") pre = true ->
  all_chars (is_not "`") body = true ->
  extract (pre ++ fence_open ++ body ++ fence_close ++ rest) =
  mkMatch (String.length pre) (fence_open ++ body ++ fence_close) body ::
  map (shift_index (String.length pre + String.length (fence_open ++ body ++ fence_close)))
      (extract rest).
Proof.
  intros Hpre Hbody. unfold extract, matchAll.
  rewrite (matchAll_from_plain_prefix mermaidRegex mermaidRegex_backquote) by assumption.
  pose proof (mermaidRegex_fence body rest Hbody) as Hm.
  destruct (mermaidRegex_full _ _ _ Hm) as [Hn Hf].
  assert (E : fence_open ++ body ++ fence_close ++ rest
              = String "`" (("``mermaid" ++ nl ++ body ++ fence_close) ++ rest)).
  { unfold fence_open. cbn [append]. now rewrite !append_assoc. }
  rewrite E in Hm, Hn, Hf |- *.
  cbn [matchAll_from]. rewrite Hm. cbn zeta. rewrite Hf. f_equal.
  rewrite Hn.
  assert (El : String.length (fence_open ++ body ++ fence_close)
               = S (String.length ("``mermaid" ++ nl ++ body ++ fence_close)))
    by reflexivity.
  rewrite El. cbn [Nat.sub]. rewrite Nat.sub_0_r.
  rewrite matchAll_from_skip.
  rewrite <- (matchAll_from_shift mermaidRegex rest 0 0).
  f_equal. lia.
Qed.

Lemma sourceText_shift_index (d : nat) (l : list RegExpMatch) :
  map sourceText (map (shift_index d) l) = map sourceText l.
Proof. rewrite map_map. reflexivity. Qed.

(** X1. Diagram sources come back from the document they were put in: for
    sources and surrounding texts without backquote, the blocks extracted
    from the document have exactly those sources, in order. *)
Theorem sources_round_trip (parts : list (string * string)) (tail : string) :
  forallb (fun part => fence_free (fst part) && fence_free (snd part)) parts = true ->
  fence_free tail = true ->
  map sourceText (extract (document parts tail)) = map snd parts.
Proof.
  intros Hparts Htail. induction parts as [|[pre body] parts IH]; cbn [document map snd].
  - now rewrite extract_without_backquote.
  - cbn [forallb fst snd] in Hparts.
    apply andb_true_iff in Hparts as [[Hpre Hbody]%andb_true_iff Hparts].
    rewrite (extract_fence_cons pre body _ Hpre Hbody). cbn [map].
    rewrite sourceText_shift_index, (IH Hparts). reflexivity.
Qed.

Lemma sources_round_trip_witness :
  map sourceText
    (extract (document [("# Title" ++ nl ++ nl, "graph TB" ++ nl ++ "A-->B");
                        (nl ++ "Then:" ++ nl, "graph LR" ++ nl ++ "B-->C")] nl)) =
  ["graph TB" ++ nl ++ "A-->B"; "graph LR" ++ nl ++ "B-->C"].
Proof.
  apply (sources_round_trip
           [("# Title" ++ nl ++ nl, "graph TB" ++ nl ++ "A-->B");
            (nl ++ "Then:" ++ nl, "graph LR" ++ nl ++ "B-->C")] nl).
  - reflexivity.
  - reflexivity.
Defined.

(** ** More on the Workbench Controller *)

Section ControllerMore.

Lemma extractMermaidDiagrams_activeTab (st : Workbench) :
  activeTab (extractMermaidDiagrams st) = activeTab st.
Proof.
  unfold extractMermaidDiagrams.
  destruct (matchAll mermaidRegex (content st)); reflexivity.
Qed.

Lemma commit_activeTab (before after : Workbench) :
  activeTab (commit before after) = activeTab after.
Proof.
  unfold commit. destruct (String.eqb (content after) (content before)); [reflexivity|].
  now rewrite extractMermaidDiagrams_activeTab.
Qed.

Lemma step_content (st : Workbench) (ev : Event) :
  content (step st ev) =
  match ev with EditorChange v => or_empty v | _ => content st end.
Proof.
  destruct ev as [v | t | k o]; cbn [step].
  - now rewrite commit_content.
  - now rewrite commit_content.
  - destruct (nth_error (pending st) k); [|reflexivity].
    rewrite commit_content. destruct o; reflexivity.
Qed.

Lemma step_activeTab (st : Workbench) (ev : Event) :
  activeTab (step st ev) =
  match ev with TabChange t => t | _ => activeTab st end.
Proof.
  destruct ev as [v | t | k o]; cbn [step].
  - now rewrite commit_activeTab.
  - now rewrite commit_activeTab.
  - destruct (nth_error (pending st) k); [|reflexivity].
    rewrite commit_activeTab. destruct o; reflexivity.
Qed.

Lemma ascending_weaken (l : list nat) (lo lo' : nat) :
  lo <= lo' -> ascending lo' l -> ascending lo l.
Proof. destruct l; simpl; [auto|]. intros ? [? ?]. split; [lia | assumption]. Qed.

Lemma ascending_snoc (l : list nat) :
  forall lo y,
    ascending lo l -> Forall (fun x => x < y) l -> lo <= y -> ascending lo (l ++ [y])%list.
Proof.
  induction l as [|x l IH]; intros lo y Ha Hl Hy; simpl.
  - split; [assumption | exact I].
  - destruct Ha as [Hx Ha]. inversion Hl as [|? ? Hxy Hl']; subst.
    split; [assumption|]. apply IH; auto.
Qed.

Lemma ascending_remove_nth (l : list nat) :
  forall lo k, ascending lo l -> ascending lo (remove_nth k l).
Proof.
  induction l as [|x l IH]; intros lo k Ha; [destruct k; exact I|].
  destruct Ha as [Hx Ha]. destruct k as [|k]; cbn [remove_nth].
  - apply (ascending_weaken l lo (S x)); [lia | assumption].
  - split; [assumption | now apply IH].
Qed.

Lemma map_remove_nth {A B} (f : A -> B) (l : list A) :
  forall k, map f (remove_nth k l) = remove_nth k (map f l).
Proof.
  induction l as [|x l IH]; intros k; [destruct k; reflexivity|].
  destruct k; cbn [remove_nth map]; [reflexivity | now rewrite IH].
Qed.

Lemma Forall_remove_nth {A} (P : A -> Prop) (l : list A) :
  forall k, Forall P l -> Forall P (remove_nth k l).
Proof.
  induction l as [|x l IH]; intros k H; [destruct k; constructor|].
  inversion H; subst. destruct k; cbn [remove_nth]; [assumption|].
  constructor; auto.
Qed.

(** The effect, run at a revision later than every render in flight, keeps
    the renders in flight in order. *)
Lemma extractMermaidDiagrams_ordered (st : Workbench) :
  ascending 0 (map issued_at (pending st)) ->
  Forall (fun t => issued_at t < revision st) (pending st) ->
  in_flight_ordered (extractMermaidDiagrams st).
Proof.
  intros Ha Hl. unfold extractMermaidDiagrams, in_flight_ordered.
  destruct (matchAll mermaidRegex (content st)) as [|m ms]; cbn.
  - split; [assumption|]. revert Hl. apply Forall_impl. intros; lia.
  - split.
    + rewrite map_app. apply ascending_snoc; [assumption | | lia].
      rewrite Forall_map. exact Hl.
    + apply Forall_app. split.
      * revert Hl. apply Forall_impl. intros; lia.
      * constructor; [cbn; lia | constructor].
Qed.

Lemma commit_ordered (before after : Workbench) :
  in_flight_ordered after -> in_flight_ordered (commit before after).
Proof.
  intros [Ha Hl]. unfold commit.
  destruct (String.eqb (content after) (content before)); [now split|].
  apply extractMermaidDiagrams_ordered; cbn; [assumption|].
  revert Hl. apply Forall_impl. intros; lia.
Qed.

Lemma step_ordered (st : Workbench) (ev : Event) :
  in_flight_ordered st -> in_flight_ordered (step st ev).
Proof.
  intros H. destruct ev as [v | t | k o]; cbn [step].
  - apply commit_ordered. exact H.
  - apply commit_ordered. exact H.
  - destruct (nth_error (pending st) k); [|exact H].
    apply commit_ordered. destruct H as [Ha Hl].
    destruct o; (split; cbn;
      [rewrite map_remove_nth; now apply ascending_remove_nth
      | now apply Forall_remove_nth]).
Qed.

End ControllerMore.

(** X2. After any sequence of events the stored text is the value the
    editor reported last (coerced to a string), and the active tab the tab
    chosen last; renders that settle change neither. *)
Theorem run_keeps_last_report (st : Workbench) (evs : list Event) :
  content (run st evs) =
  match last_edit evs with Some v => or_empty v | None => content st end /\
  activeTab (run st evs) =
  match last_tab evs with Some t => t | None => activeTab st end.
Proof.
  revert st. induction evs as [|ev evs IH]; intros st; [split; reflexivity|].
  cbn [run fold_left last_edit last_tab]. fold (run (step st ev) evs).
  destruct (IH (step st ev)) as [Hc Ht]. rewrite Hc, Ht, step_content, step_activeTab.
  split.
  - destruct (last_edit evs); [reflexivity|]. destruct ev; reflexivity.
  - destruct (last_tab evs); [reflexivity|]. destruct ev; reflexivity.
Qed.

(** X3. Each change of the text starts at most one render: in every state
    reached from the mounted component the renders in flight were started
    at distinct revisions, in increasing order, none later than the current
    one. *)
Theorem renders_in_flight_are_ordered (evs : list Event) :
  in_flight_ordered (run mount evs).
Proof.
  assert (H : in_flight_ordered mount).
  { apply extractMermaidDiagrams_ordered; cbn; [exact I | constructor]. }
  revert H. generalize mount. induction evs as [|ev evs IH]; intros st H; [exact H|].
  cbn [run fold_left]. apply IH. now apply step_ordered.
Qed.

(** X4. An edit that brings a text without backquote clears the diagram at
    once: the markup is emptied, the pane shows the notice that no diagram
    was found, and the rendering service is not called. *)
Theorem edit_without_fence_clears_diagram (st : Workbench) (text : string) :
  all_chars (is_not "`") text = true ->
  text <> content st ->
  let st' := step st (EditorChange (JsString text)) in
  diagramHtml st' = EmptyString /\
  diagramPane st' = None /\
  calls st' = calls st /\
  pending st' = pending st.
Proof.
  intros Hplain Hne. cbn zeta. cbn [step].
  rewrite commit_changed
    by (unfold handleEditorChange, setContent; cbn [content]; now rewrite or_empty_string).
  unfold extractMermaidDiagrams, next_revision, handleEditorChange, setContent.
  cbn [content]. rewrite or_empty_string.
  fold (extract text). rewrite (extract_without_backquote text Hplain). repeat split.
Qed.

Lemma edit_without_fence_clears_diagram_witness :
  diagramPane (step mount (EditorChange (JsString "No diagram here."))) = None.
Proof.
  apply (edit_without_fence_clears_diagram mount "No diagram here.").
  - reflexivity.
  - vm_compute. discriminate.
Defined.

(** X5. The render that an edit starts is decided by the text up to the end
    of its first fence: whatever follows, other fences included, the
    service is called once, with the source of the first fence. *)
Theorem first_fence_is_rendered (st : Workbench) (pre body rest : string) :
  all_chars (is_not "`") pre = true ->
  all_chars (is_not "`") body = true ->
  pre ++ fence_open ++ body ++ fence_close ++ rest <> content st ->
  let st' := step st (EditorChange (JsString (pre ++ fence_open ++ body ++ fence_close ++ rest))) in
  calls st' = body :: calls st /\
  pending st' = (pending st ++ [mkTask (S (revision st)) body])%list /\
  diagramHtml st' = diagramHtml st.
Proof.
  intros Hpre Hbody Hne. cbn zeta. cbn [step].
  rewrite commit_changed
    by (unfold handleEditorChange, setContent; cbn [content]; now rewrite or_empty_string).
  unfold extractMermaidDiagrams, next_revision, handleEditorChange, setContent.
  cbn [content]. rewrite or_empty_string.
  fold (extract (pre ++ fence_open ++ body ++ fence_close ++ rest)).
  rewrite (extract_fence_cons pre body rest Hpre Hbody). repeat split.
Qed.

Lemma first_fence_is_rendered_witness :
  calls (step mount (EditorChange (JsString
           (("Intro" ++ nl) ++ fence_open ++ "A" ++ fence_close ++ (nl ++ doc_B))))) =
  "A" :: calls mount.
Proof.
  apply (first_fence_is_rendered mount ("Intro" ++ nl) "A" (nl ++ doc_B)).
  - reflexivity.
  - reflexivity.
  - vm_compute. discriminate.
Defined.

(** X6. When a render succeeds, the diagram pane shows the markup it
    returned, except that for an empty markup the pane shows the notice that
    no diagram was found. *)
Theorem settled_svg_is_shown (st : Workbench) (k : nat) (task : Task) (svg : string) :
  nth_error (pending st) k = Some task ->
  diagramPane (step st (RenderSettled k (Resolved svg))) =
  if String.eqb svg EmptyString then None else Some svg.
Proof.
  intros H. rewrite (step_settled _ _ _ _ H). reflexivity.
Qed.

Lemma settled_svg_is_shown_witness :
  diagramPane (step mount (RenderSettled 0 (Resolved EmptyString))) = None.
Proof.
  apply (settled_svg_is_shown mount 0 (hd (mkTask 0 EmptyString) (pending mount)) EmptyString).
  vm_compute. reflexivity.
Defined.

(** ** More on the Markdown Projector *)

Section EmphasisFacts.

Lemma nl2br_no_line_feed (s : string) : all_chars (is_not LF) (nl2br s) = true.
Proof.
  induction s as [|c s IH]; [reflexivity|].
  cbn [nl2br]. destruct (Ascii.eqb c LF) eqn:E.
  - rewrite all_chars_app, IH. reflexivity.
  - cbn [all_chars]. unfold is_not at 1. now rewrite E, IH.
Qed.

Lemma count_char_app (c : ascii) (a b : string) :
  count_char c (a ++ b) = count_char c a + count_char c b.
Proof.
  induction a as [|d a IH]; [reflexivity|].
  cbn [append count_char]. rewrite IH. lia.
Qed.

Lemma count_char_none (c : ascii) (s : string) :
  all_chars (is_not c) s = true -> count_char c s = 0.
Proof.
  induction s as [|d s IH]; [reflexivity|].
  cbn [all_chars count_char]. unfold is_not at 1.
  intros [Hd Hs]%andb_true_iff. apply negb_true_iff in Hd. now rewrite Hd, IH.
Qed.

(** A greedy star whose continuation needs an asterisk fails on a text
    without one. *)
Lemma star_greedy_no_asterisk (cls : ascii -> bool) (m s : string) :
  all_chars (is_not "*") s = true ->
  star_greedy cls (lit (String "*" m) accept) s = None.
Proof.
  induction s as [|c s IH]; intros H; [reflexivity|].
  simpl in H. apply andb_true_iff in H as [Hc Hs].
  cbn [star_greedy]. rewrite (IH Hs).
  rewrite lit_first_char by now apply is_not_eqb.
  destruct (cls c); reflexivity.
Qed.

(** A greedy star goes on over a prefix in its class when it succeeds after
    it. *)
Lemma star_greedy_prefix {A} (cls : ascii -> bool) (k : cont A) (p s cap : string) (a : A) :
  all_chars cls p = true ->
  star_greedy cls k s = Some (cap, a) ->
  star_greedy cls k (p ++ s) = Some (p ++ cap, a).
Proof.
  intros Hp Hs. induction p as [|c p IH]; [exact Hs|].
  simpl in Hp. apply andb_true_iff in Hp as [Hc Hp].
  cbn [append star_greedy]. now rewrite Hc, (IH Hp).
Qed.

(** The closing marker that a greedy run stops at is the last of the line:
    here, the only one left. *)
Lemma star_greedy_close_em (post : string) :
  all_chars (is_not "*") post = true ->
  star_greedy dot (lit "*" accept) ("*" ++ post) = Some (EmptyString, post).
Proof.
  intros Hpost.
  change ("*" ++ post) with (String "*" post).
  cbn [star_greedy].
  rewrite (star_greedy_no_asterisk dot EmptyString post Hpost).
  change (String "*" post) with ("*" ++ post). rewrite lit_app.
  reflexivity.
Qed.

Lemma star_greedy_close_strong (post : string) :
  all_chars (is_not "*") post = true ->
  star_greedy dot (lit "**" accept) ("**" ++ post) = Some (EmptyString, post).
Proof.
  intros Hpost.
  change ("**" ++ post) with (String "*" (String "*" post)).
  cbn [star_greedy].
  rewrite (star_greedy_no_asterisk dot "*" post Hpost).
  change (String "*" (String "*" post)) with ("**" ++ post). rewrite lit_app.
  replace (lit "**" accept (String "*" post)) with (@None string); [reflexivity|].
  unfold lit. cbn [strip_prefix]. destruct post as [|c post]; [reflexivity|].
  simpl in Hpost. apply andb_true_iff in Hpost as [Hc _].
  rewrite (is_not_eqb "*" c Hc). reflexivity.
Qed.

Lemma emphasis_rule_Some (m opening closing : string) (bol : bool) (s repl rest : string) :
  emphasis_rule m opening closing bol s = Some (repl, rest) ->
  exists t, s = m ++ t ++ m ++ rest /\ repl = opening ++ t ++ closing.
Proof.
  unfold emphasis_rule.
  destruct (lit m (star_greedy dot (lit m accept)) s) as [[t rest']|] eqn:E; [|discriminate].
  intros H. injection H as <- <-.
  apply lit_Some in E as (s' & -> & E).
  apply star_greedy_sound in E as (r' & -> & E).
  apply lit_Some in E as (r'' & -> & E). unfold accept in E. injection E as ->.
  now exists t.
Qed.

(** A rule that needs more asterisks than the text has matches nowhere. *)
Lemma never_few_asterisks (m opening closing : string) (s : string) :
  forall bol,
    count_char "*" s < 2 * count_char "*" m ->
    never (emphasis_rule m opening closing) bol s.
Proof.
  induction s as [|c s IH]; intros bol H; cbn [never]; split.
  - destruct (emphasis_rule m opening closing bol EmptyString) as [[repl rest]|] eqn:E;
      [|reflexivity].
    apply emphasis_rule_Some in E as (t & E & _).
    apply (f_equal (count_char "*")) in E. rewrite !count_char_app in E. simpl in *. lia.
  - exact I.
  - destruct (emphasis_rule m opening closing bol (String c s)) as [[repl rest]|] eqn:E;
      [|reflexivity].
    apply emphasis_rule_Some in E as (t & E & _).
    apply (f_equal (count_char "*")) in E. rewrite !count_char_app in E. lia.
  - apply IH. cbn [count_char] in H. lia.
Qed.

End EmphasisFacts.

Lemma inert_text_plain (s : string) :
  all_chars inert s = true -> all_chars plain s = true.
Proof.
  apply all_chars_weaken. unfold inert, plain.
  intros c [[? ?]%andb_true_iff ?]%andb_true_iff. now apply andb_true_iff.
Qed.

Section EmphasisSpan.

Variables m opening closing : string.
Let marker : string := String "*" m.
Let r : rule := emphasis_rule marker opening closing.

Hypothesis marker_close :
  forall post, all_chars (is_not "*") post = true ->
    star_greedy dot (lit marker accept) (marker ++ post) = Some (EmptyString, post).

(** The pass over a text with one span: the span runs from the first marker
    to the last marker of its line. *)
Lemma emphasis_pass_span (pre t post : string) :
  all_chars (is_not "*") pre = true ->
  all_chars dot t = true ->
  all_chars (is_not "*") post = true ->
  replace r (pre ++ marker ++ t ++ marker ++ post) =
  pre ++ opening ++ t ++ closing ++ post.
Proof.
  intros Hpre Ht Hpost. unfold replace.
  destruct (replace_from_plain_prefix "*" r (emphasis_rule_starts m opening closing)
              pre (marker ++ t ++ marker ++ post) true Hpre) as [bol E].
  rewrite E. f_equal.
  assert (Em : marker ++ t ++ marker ++ post = String "*" (m ++ t ++ marker) ++ post).
  { unfold marker. cbn [append]. now rewrite !append_assoc. }
  rewrite Em.
  rewrite replace_from_match with (repl := opening ++ t ++ closing).
  - rewrite replace_from_never; [now rewrite !append_assoc|].
    now apply (never_without_char "*" r (emphasis_rule_starts m opening closing)).
  - rewrite <- Em. unfold r, emphasis_rule. rewrite lit_app.
    rewrite (star_greedy_prefix dot _ t _ EmptyString post Ht (marker_close post Hpost)).
    now rewrite append_nil_r.
Qed.

End EmphasisSpan.

Lemma strong_pass_span (pre t post : string) :
  all_chars (is_not "*") pre = true ->
  all_chars dot t = true ->
  all_chars (is_not "*") post = true ->
  replace strong_rule (pre ++ "**" ++ t ++ "**" ++ post) =
  pre ++ "<strong>" ++ t ++ "</strong>" ++ post.
Proof. apply (emphasis_pass_span "*"). exact star_greedy_close_strong. Qed.

Lemma em_pass_span (pre t post : string) :
  all_chars (is_not "*") pre = true ->
  all_chars dot t = true ->
  all_chars (is_not "*") post = true ->
  replace em_rule (pre ++ "*" ++ t ++ "*" ++ post) =
  pre ++ "<em>" ++ t ++ "</em>" ++ post.
Proof. apply (emphasis_pass_span EmptyString). exact star_greedy_close_em. Qed.

(** The passes after the emphasis rules, on a text without backquote. *)
Lemma fence_passes_without_backquote (s : string) :
  all_chars (is_not "`") s = true ->
  replace br_rule (replace code_rule (replace mermaid_rule s)) = nl2br s.
Proof.
  intros H.
  pass_without "`"%char mermaid_rule H.
  pass_without "`"%char code_rule H.
  unfold replace. apply replace_from_br.
Qed.

Lemma heading_passes_without_marker (s : string) :
  all_chars (is_not "#") s = true -> headings s = s.
Proof.
  intros H. unfold headings.
  pass_without "#"%char h1_rule H.
  pass_without "#"%char h2_rule H.
  pass_without "#"%char h3_rule H.
  reflexivity.
Qed.

Ltac split_chars :=
  rewrite ?all_chars_app;
  repeat match goal with
         | H : all_chars _ _ = true |- _ => rewrite H
         end;
  reflexivity.

(** X7. The preview markup never contains a line feed: every line feed of
    the text, and of what the rules put in, has become a break. *)
Theorem preview_has_no_line_feed (text : string) :
  all_chars (is_not LF) (renderMarkdown text) = true.
Proof.
  unfold renderMarkdown, replace. rewrite replace_from_br. apply nl2br_no_line_feed.
Qed.

(** X8. A text without heading marker, asterisk or backquote is kept as it
    is, its line feeds turned into breaks. *)
Theorem inert_text_is_kept (text : string) :
  all_chars inert text = true -> renderMarkdown text = nl2br text.
Proof.
  intros H. destruct (inert_split _ H) as (Hh & _ & _).
  rewrite renderMarkdown_plain by now apply inert_text_plain.
  unfold headings.
  pass_without "#"%char h1_rule Hh.
  pass_without "#"%char h2_rule Hh.
  pass_without "#"%char h3_rule Hh.
  reflexivity.
Qed.

Lemma inert_text_is_kept_witness :
  renderMarkdown ("- 99.9% uptime" ++ nl ++ "- PCI DSS compliance") =
  nl2br ("- 99.9% uptime" ++ nl ++ "- PCI DSS compliance").
Proof.
  apply (inert_text_is_kept ("- 99.9% uptime" ++ nl ++ "- PCI DSS compliance")).
  reflexivity.
Defined.

(** X9. A text between two pairs of asterisks, on one line, becomes a
    strong element, in a text that has no other marker. *)
Theorem bold_span (pre t post : string) :
  all_chars inert pre = true ->
  all_chars inert_line t = true ->
  all_chars inert post = true ->
  renderMarkdown (pre ++ "**" ++ t ++ "**" ++ post) =
  nl2br pre ++ "<strong>" ++ t ++ "</strong>" ++ nl2br post.
Proof.
  intros Hpre Ht Hpost.
  destruct (inert_split _ Hpre) as (Hprh & Hprs & Hprt).
  destruct (inert_split _ Hpost) as (Hpoh & Hpos & Hpot).
  destruct (inert_line_split _ Ht) as (Hti & Htd & Htl).
  destruct (inert_split _ Hti) as (Hth & Hts & Htt).
  unfold renderMarkdown. fold (headings (pre ++ "**" ++ t ++ "**" ++ post)).
  rewrite heading_passes_without_marker by split_chars.
  rewrite strong_pass_span by assumption.
  rewrite (replace_without_char "*" em_rule);
    [|apply emphasis_rule_starts|split_chars].
  rewrite fence_passes_without_backquote by split_chars.
  rewrite !nl2br_app, (nl2br_one_line t Htl). reflexivity.
Qed.

Lemma bold_span_witness :
  renderMarkdown (("Consequences" ++ nl) ++ "**" ++ "Positive:" ++ "**" ++ (nl ++ "- x")) =
  nl2br ("Consequences" ++ nl) ++ "<strong>" ++ "Positive:" ++ "</strong>" ++ nl2br (nl ++ "- x").
Proof.
  apply (bold_span ("Consequences" ++ nl) "Positive:" (nl ++ "- x")); reflexivity.
Defined.

(** X10. A text between two asterisks, on one line, becomes an emphasis
    element, in a text that has no other marker. *)
Theorem italic_span (pre t post : string) :
  all_chars inert pre = true ->
  all_chars inert_line t = true ->
  all_chars inert post = true ->
  renderMarkdown (pre ++ "*" ++ t ++ "*" ++ post) =
  nl2br pre ++ "<em>" ++ t ++ "</em>" ++ nl2br post.
Proof.
  intros Hpre Ht Hpost.
  destruct (inert_split _ Hpre) as (Hprh & Hprs & Hprt).
  destruct (inert_split _ Hpost) as (Hpoh & Hpos & Hpot).
  destruct (inert_line_split _ Ht) as (Hti & Htd & Htl).
  destruct (inert_split _ Hti) as (Hth & Hts & Htt).
  unfold renderMarkdown. fold (headings (pre ++ "*" ++ t ++ "*" ++ post)).
  rewrite heading_passes_without_marker by split_chars.
  assert (Es : replace strong_rule (pre ++ "*" ++ t ++ "*" ++ post)
               = pre ++ "*" ++ t ++ "*" ++ post).
  { apply replace_from_never, never_few_asterisks. rewrite !count_char_app.
    rewrite (count_char_none "*" pre Hprs), (count_char_none "*" t Hts),
      (count_char_none "*" post Hpos). cbn. lia. }
  rewrite Es, em_pass_span by assumption.
  rewrite fence_passes_without_backquote by split_chars.
  rewrite !nl2br_app, (nl2br_one_line t Htl). reflexivity.
Qed.

Lemma italic_span_witness :
  renderMarkdown ("It is " ++ "*" ++ "not" ++ "*" ++ " done.") =
  nl2br "It is " ++ "<em>" ++ "not" ++ "</em>" ++ nl2br " done.".
Proof.
  apply (italic_span "It is " "not" " done."); reflexivity.
Defined.

(** X11. Two bold spans on one line do not become two strong elements: the
    bold rule takes everything from the first pair of asterisks to the last
    one, and the italic rule then takes the asterisks left inside. *)
Theorem bold_spans_merge (pre a mid b post : string) :
  all_chars inert pre = true ->
  all_chars inert_line a = true ->
  all_chars inert_line mid = true ->
  all_chars inert_line b = true ->
  all_chars inert post = true ->
  renderMarkdown (pre ++ "**" ++ a ++ "**" ++ mid ++ "**" ++ b ++ "**" ++ post) =
  nl2br pre ++ "<strong>" ++ a ++ "<em>*" ++ mid ++ "*</em>" ++ b ++ "</strong>" ++ nl2br post.
Proof.
  intros Hpre Ha Hmid Hb Hpost.
  destruct (inert_split _ Hpre) as (Hprh & Hprs & Hprt).
  destruct (inert_split _ Hpost) as (Hpoh & Hpos & Hpot).
  destruct (inert_line_split _ Ha) as (Hai & Had & Hal).
  destruct (inert_split _ Hai) as (Hah & Has & Hat).
  destruct (inert_line_split _ Hmid) as (Hmi & Hmd & Hml).
  destruct (inert_split _ Hmi) as (Hmh & Hms & Hmt).
  destruct (inert_line_split _ Hb) as (Hbi & Hbd & Hbl).
  destruct (inert_split _ Hbi) as (Hbh & Hbs & Hbt).
  unfold renderMarkdown.
  fold (headings (pre ++ "**" ++ a ++ "**" ++ mid ++ "**" ++ b ++ "**" ++ post)).
  rewrite heading_passes_without_marker by split_chars.
  assert (E1 : pre ++ "**" ++ a ++ "**" ++ mid ++ "**" ++ b ++ "**" ++ post
               = pre ++ "**" ++ (a ++ "**" ++ mid ++ "**" ++ b) ++ "**" ++ post)
    by now rewrite !append_assoc.
  rewrite E1, strong_pass_span; [|assumption|split_chars|assumption].
  assert (E2 : pre ++ "<strong>" ++ (a ++ "**" ++ mid ++ "**" ++ b) ++ "</strong>" ++ post
               = (pre ++ "<strong>" ++ a) ++ "*" ++ ("*" ++ mid ++ "*") ++ "*"
                 ++ (b ++ "</strong>" ++ post)).
  { rewrite !append_assoc. reflexivity. }
  rewrite E2, em_pass_span; [|split_chars|split_chars|split_chars].
  rewrite fence_passes_without_backquote by split_chars.
  rewrite !nl2br_app, !append_assoc.
  rewrite (nl2br_one_line a Hal), (nl2br_one_line mid Hml), (nl2br_one_line b Hbl).
  reflexivity.
Qed.

Lemma bold_spans_merge_witness :
  renderMarkdown ("" ++ "**" ++ "a" ++ "**" ++ " and " ++ "**" ++ "b" ++ "**" ++ "") =
  nl2br "" ++ "<strong>" ++ "a" ++ "<em>*" ++ " and " ++ "*</em>" ++ "b" ++ "</strong>"
  ++ nl2br "".
Proof.
  apply (bold_spans_merge "" "a" " and " "b" ""); reflexivity.
Defined.

(** ** The AI Oracle panel *)

Section AIOracleFacts.

Import AIOracle.

Lemma trimStart_blank (s : string) :
  all_chars is_white_space s = true -> trimStart s = EmptyString.
Proof.
  induction s as [|c s IH]; [reflexivity|].
  simpl. intros [Hc Hs]%andb_true_iff. now rewrite Hc, IH.
Qed.

Lemma trimEnd_empty (s : string) :
  trimEnd s = EmptyString -> all_chars is_white_space s = true.
Proof.
  induction s as [|c s IH]; [reflexivity|].
  cbn [trimEnd all_chars]. destruct (trimEnd s) as [|d r]; [|discriminate].
  destruct (is_white_space c); [|discriminate]. intros _. now rewrite IH.
Qed.

Lemma trimStart_suffix (s : string) :
  all_chars is_white_space (trimStart s) = true -> all_chars is_white_space s = true.
Proof.
  induction s as [|c s IH]; [reflexivity|].
  cbn [trimStart]. destruct (is_white_space c) eqn:Hc.
  - intros H. cbn [all_chars]. now rewrite Hc, IH.
  - auto.
Qed.

(** A string trims to nothing exactly when it is made of white space. *)
Lemma trim_empty (s : string) :
  String.eqb (trim s) EmptyString = all_chars is_white_space s.
Proof.
  destruct (all_chars is_white_space s) eqn:H.
  - unfold trim. now rewrite trimStart_blank.
  - apply String.eqb_neq. intros E. unfold trim in E.
    apply trimEnd_empty, trimStart_suffix in E. congruence.
Qed.

End AIOracleFacts.

Lemma handleSubmit_cases (st : AIOracle.Panel) :
  AIOracle.handleSubmit st =
  if all_chars AIOracle.is_white_space (AIOracle.query st)
  then st
  else AIOracle.mkPanel (AIOracle.query st) true (S (AIOracle.timeouts st)).
Proof.
  unfold AIOracle.handleSubmit. rewrite trim_empty.
  destruct (all_chars AIOracle.is_white_space (AIOracle.query st)); reflexivity.
Qed.

(** X12. Submitting a query made of white space only, or empty, changes
    nothing; submitting any other query sets the loading flag and schedules
    one callback, the query being kept. *)
Theorem submit_needs_a_visible_character (st : AIOracle.Panel) :
  AIOracle.handleSubmit st =
  if all_chars AIOracle.is_white_space (AIOracle.query st)
  then st
  else AIOracle.mkPanel (AIOracle.query st) true (S (AIOracle.timeouts st)).
Proof.
  unfold AIOracle.handleSubmit. rewrite trim_empty.
  destruct (all_chars AIOracle.is_white_space (AIOracle.query st)); reflexivity.
Qed.

Lemma run_input_changes (st : AIOracle.Panel) (values : list string) :
  AIOracle.isLoading (AIOracle.run st (map AIOracle.InputChange values)) = AIOracle.isLoading st /\
  AIOracle.timeouts (AIOracle.run st (map AIOracle.InputChange values)) = AIOracle.timeouts st.
Proof.
  revert st. induction values as [|v values IH]; intros st; [split; reflexivity|].
  cbn [map AIOracle.run fold_left]. fold (AIOracle.run (AIOracle.step st (AIOracle.InputChange v))
                                              (map AIOracle.InputChange values)).
  destruct (IH (AIOracle.step st (AIOracle.InputChange v))) as [H1 H2].
  rewrite H1, H2. split; reflexivity.
Qed.

(** X13. What is typed while the panel is loading is lost: after a submit
    from an idle panel, whatever the input reports before the callback runs,
    the callback leaves the query empty and the panel idle. *)
Theorem typing_while_loading_is_discarded (st : AIOracle.Panel) (values : list string) :
  AIOracle.idle st ->
  all_chars AIOracle.is_white_space (AIOracle.query st) = false ->
  AIOracle.run st (AIOracle.FormSubmit :: map AIOracle.InputChange values
                     ++ [AIOracle.TimeoutFires])%list =
  AIOracle.initial.
Proof.
  intros [Hl Ht] Hq.
  cbn [AIOracle.run fold_left]. unfold AIOracle.step at 2. rewrite Hl.
  rewrite handleSubmit_cases, Hq, Ht.
  rewrite fold_left_app. cbn [fold_left].
  fold (AIOracle.run (AIOracle.mkPanel (AIOracle.query st) true 1)
          (map AIOracle.InputChange values)).
  destruct (run_input_changes (AIOracle.mkPanel (AIOracle.query st) true 1) values) as [H1 H2].
  unfold AIOracle.step. rewrite H2. reflexivity.
Qed.

Lemma typing_while_loading_is_discarded_witness :
  AIOracle.run (AIOracle.mkPanel "How to scale?" false 0)
    (AIOracle.FormSubmit :: map AIOracle.InputChange ["A"; "An"; "And"]
       ++ [AIOracle.TimeoutFires])%list =
  AIOracle.initial.
Proof.
  apply (typing_while_loading_is_discarded (AIOracle.mkPanel "How to scale?" false 0)
           ["A"; "An"; "And"]).
  - split; reflexivity.
  - reflexivity.
Defined.

(** X14. However the panel is used, the loading flag is set exactly while
    one callback is scheduled, and no second callback is ever scheduled
    beside it. *)
Theorem loading_while_a_timeout_is_pending (evs : list AIOracle.Event) :
  AIOracle.loading_matches_timeouts (AIOracle.run AIOracle.initial evs).
Proof.
  assert (H : AIOracle.loading_matches_timeouts AIOracle.initial) by reflexivity.
  revert H. generalize AIOracle.initial.
  induction evs as [|ev evs IH]; intros st H; [exact H|].
  cbn [AIOracle.run fold_left]. apply IH. clear IH.
  unfold AIOracle.loading_matches_timeouts in *.
  destruct st as [q l t]. cbn in H. subst t.
  destruct ev as [v| |]; cbn.
  - reflexivity.
  - destruct l; [reflexivity|].
    rewrite handleSubmit_cases. cbn.
    destruct (all_chars AIOracle.is_white_space q); reflexivity.
  - destruct l; reflexivity.
Qed.

(** ** The build-and-push script *)

Section WordFacts.

Import BuildAndPush.


Lemma append_not_empty (a : string) (c : ascii) (b : string) :
  String.eqb (a ++ String c b) EmptyString = false.
Proof. destruct a; reflexivity. Qed.

Lemma word_split_from_app (w : string) :
  no_ifs w = true ->
  forall word s, word_split_from word (w ++ s) = word_split_from (word ++ w) s.
Proof.
  induction w as [|c w IH]; intros Hw word s.
  - now rewrite append_nil_r.
  - cbn [no_ifs all_chars] in Hw. apply andb_true_iff in Hw as [Hc Hw].
    apply negb_true_iff in Hc.
    change (String c w ++ s) with (String c (w ++ s)).
    cbn [word_split_from]. rewrite Hc, (IH Hw), append_assoc. reflexivity.
Qed.

(** A text without white space is one word, unless it is empty. *)
Lemma word_split_word (w : string) :
  no_ifs w = true -> String.eqb w EmptyString = false -> word_split w = [w].
Proof.
  intros Hw Hne. unfold word_split.
  rewrite <- (append_nil_r w) at 1.
  rewrite (word_split_from_app w Hw). cbn [append word_split_from].
  now rewrite Hne.
Qed.











(** Without white space in the registry and in the version, every variable
    of the build and of the push is one argument. *)
Lemma build_and_push_words (registry version service : string) :
  no_ifs registry = true -> no_ifs version = true -> In service SERVICES ->
  build_and_push registry version service = build_and_push_as_read registry version service.
Proof.
  intros Hr Hv Hs.
  assert (Himage : word_split (IMAGE_NAME registry service version)
                   = [IMAGE_NAME registry service version]).
  { apply word_split_word; [|apply append_not_empty].
    unfold IMAGE_NAME, no_ifs in *. rewrite !all_chars_app, Hr, Hv.
    cbn in Hs. decompose [or] Hs; subst; try contradiction; reflexivity. }
  unfold build_and_push, build_and_push_as_read, docker_build, docker_push.
  rewrite Himage.
  cbn in Hs. decompose [or] Hs; subst; try contradiction; reflexivity.
Qed.

Lemma flat_map_filter_ext {A B : Type} (f g : A -> list B) (p : A -> bool) (l : list A) :
  (forall a, In a l -> f a = g a) ->
  flat_map f (filter p l) = flat_map g (filter p l).
Proof.
  intros H. induction l as [|a l IH]; [reflexivity|].
  cbn [filter]. destruct (p a).
  - cbn [flat_map]. rewrite (H a (or_introl eq_refl)), IH; [reflexivity|].
    intros b Hb. apply H. now right.
  - apply IH. intros b Hb. apply H. now right.
Qed.

(** Two values that the script does not take as they read: a registry that
    [echo] takes as an option leaves the login without a name, and a
    registry with white space gives it two. *)
Example login_of_an_option :
  az_acr_login "-n" = Az ["acr"; "login"; "--name"].
Proof. reflexivity. Qed.

Example login_of_two_words :
  az_acr_login "a  b.dom" = Az ["acr"; "login"; "--name"; "a"; "b"].
Proof. reflexivity. Qed.

End WordFacts.

Section DotEnvFacts.

Import BuildAndPush.

(** What the file .env does to a run on a machine where all else is well:
    a failing export ends it before the first check; without a registry in
    the file and in the environment the fourth check ends it; and the
    registry of the file is the one logged in to. *)
Example export_failure_runs_nothing :
  script good_host acme ExportFails None = ([], false).
Proof. reflexivity. Qed.

Example no_registry_runs_nothing :
  script good_host unset (Exported None) None = ([], false).
Proof. reflexivity. Qed.

Example registry_of_dotenv_overrides :
  fst (script good_host other (Exported (Some acme)) None) =
  [ Az ["acr"; "login"; "--name"; "acme"];
    Docker ["build"; "-t"; "acme.azurecr.io/frontend:latest";
            "-f"; "frontend/Dockerfile"; "frontend"];
    Docker ["push"; "acme.azurecr.io/frontend:latest"] ].
Proof. reflexivity. Qed.

End DotEnvFacts.

Section BuildFacts.

Import BuildAndPush.

Variable h : Host.
Variables registry version : string.

Lemma build_loop_success (services : list string) (cs : list Command) :
  build_loop h registry version services = (cs, true) ->
  cs = flat_map (build_and_push registry version)
         (filter (fun s => is_file h (DOCKERFILE_PATH s)) services) /\
  Forall (fun c => succeeds h c = true) cs.
Proof.
  revert cs. induction services as [|s rest IH]; intros cs H; cbn [build_loop] in H.
  - injection H as <-. split; [reflexivity | constructor].
  - cbn [filter]. destruct (is_file h (DOCKERFILE_PATH s)); cbn [negb] in H.
    + cbv zeta in H.
      destruct (succeeds h (docker_build _ _ _)) eqn:Hb; cbn [negb] in H; [|discriminate].
      destruct (succeeds h (docker_push _ _ _)) eqn:Hp; cbn [negb] in H; [|discriminate].
      destruct (build_loop h registry version rest) as [cs' ok] eqn:E.
      injection H as <- ->. destruct (IH _ eq_refl) as [-> Hall].
      split; [reflexivity|]. repeat constructor; assumption.
    + now apply IH.
Qed.


End BuildFacts.

Section ScriptFacts.

Import BuildAndPush.

(** X15. When the script ends well, the export of the file .env had not
    failed and the four checks had passed, on the value that
    AZURE_CONTAINER_REGISTRY has after the file is read. The commands it ran
    are the login to the registry followed, for each service of the list
    that has a Dockerfile and in the order of the list, by the build and the
    push of its image, each with the words of its variables as arguments;
    each of them succeeded. When the registry and the version are without
    white space, the builds and pushes are as the script reads: the image
    registry/service:version is one argument. *)
Theorem script_success (h : Host) (environ : Value) (dotenv : DotEnv)
    (arg1 : option Value) (cs : list Command) :
  script h environ dotenv arg1 = (cs, true) ->
  dotenv <> ExportFails /\
  preflight h (AZURE_CONTAINER_REGISTRY environ dotenv) = true /\
  cs = az_acr_login (AZURE_CONTAINER_REGISTRY environ dotenv)
       :: flat_map (build_and_push (AZURE_CONTAINER_REGISTRY environ dotenv) (VERSION arg1))
            (filter (fun s => is_file h (DOCKERFILE_PATH s)) SERVICES) /\
  Forall (fun c => succeeds h c = true) cs /\
  (no_ifs (AZURE_CONTAINER_REGISTRY environ dotenv) = true ->
   no_ifs (VERSION arg1) = true ->
   cs = az_acr_login (AZURE_CONTAINER_REGISTRY environ dotenv)
        :: flat_map (build_and_push_as_read (AZURE_CONTAINER_REGISTRY environ dotenv)
                       (VERSION arg1))
             (filter (fun s => is_file h (DOCKERFILE_PATH s)) SERVICES)).
Proof.
  intros H.
  assert (Hgo : dotenv <> ExportFails) by (intros ->; discriminate H).
  assert (Hrun :
    (if negb (docker_info h) then ([], false)
     else if negb (command_v_az h) then ([], false)
     else if negb (az_account_show h) then ([], false)
     else if String.eqb (AZURE_CONTAINER_REGISTRY environ dotenv) EmptyString
     then ([], false)
     else
       if negb (succeeds h (az_acr_login (AZURE_CONTAINER_REGISTRY environ dotenv)))
       then ([az_acr_login (AZURE_CONTAINER_REGISTRY environ dotenv)], false)
       else let (cs, ok) := build_loop h (AZURE_CONTAINER_REGISTRY environ dotenv)
                              (VERSION arg1) SERVICES in
            (az_acr_login (AZURE_CONTAINER_REGISTRY environ dotenv) :: cs, ok))
    = (cs, true)).
  { destruct dotenv; [exact H | contradiction | exact H]. }
  clear H. split; [assumption|]. unfold preflight.
  destruct (docker_info h); [|discriminate].
  destruct (command_v_az h); [|discriminate].
  destruct (az_account_show h); [|discriminate].
  destruct (String.eqb (AZURE_CONTAINER_REGISTRY environ dotenv) EmptyString);
    [discriminate|].
  cbn [negb andb] in *.
  destruct (succeeds h (az_acr_login _)) eqn:Hl; cbn [negb] in Hrun; [|discriminate].
  destruct (build_loop h (AZURE_CONTAINER_REGISTRY environ dotenv) (VERSION arg1) SERVICES)
    as [cs' ok] eqn:E.
  injection Hrun as <- ->.
  destruct (build_loop_success _ _ _ _ _ E) as [-> Hall].
  repeat split; auto.
  intros Hr Hv. f_equal. apply flat_map_filter_ext.
  intros s Hs. now apply build_and_push_words.
Qed.



End ScriptFacts.

Lemma script_success_witness :
  BuildAndPush.Exported (Some BuildAndPush.acme) <> BuildAndPush.ExportFails /\
  BuildAndPush.preflight BuildAndPush.good_host "acme.azurecr.io" = true /\
  [ BuildAndPush.Az ["acr"; "login"; "--name"; "acme"];
    BuildAndPush.Docker ["build"; "-t"; "acme.azurecr.io/frontend:latest";
                         "-f"; "frontend/Dockerfile"; "frontend"];
    BuildAndPush.Docker ["push"; "acme.azurecr.io/frontend:latest"] ] =
  BuildAndPush.az_acr_login "acme.azurecr.io"
  :: flat_map (BuildAndPush.build_and_push "acme.azurecr.io" "latest")
       (filter (fun s => BuildAndPush.is_file BuildAndPush.good_host
                           (BuildAndPush.DOCKERFILE_PATH s)) BuildAndPush.SERVICES).
Proof.
  destruct (script_success BuildAndPush.good_host BuildAndPush.other
              (BuildAndPush.Exported (Some BuildAndPush.acme)) None
              [ BuildAndPush.Az ["acr"; "login"; "--name"; "acme"];
                BuildAndPush.Docker ["build"; "-t"; "acme.azurecr.io/frontend:latest";
                                     "-f"; "frontend/Dockerfile"; "frontend"];
                BuildAndPush.Docker ["push"; "acme.azurecr.io/frontend:latest"] ])
    as (Hgo & Hpre & Hcs & _).
  - vm_compute. reflexivity.
  - exact (conj Hgo (conj Hpre Hcs)).
Defined.


